(** * Locksmith: a shallow embedding of [lksmith.c]

    The development follows the C file top to bottom: the C library and the
    missing headers first, then the private data structures and globals, then
    one definition per C function, and finally the properties of the lock
    registry, the lifecycle functions, the version query and thread naming.

    Conventions.
    - C integers are [Z]; where the source computes in [size_t] the
      wrap-around is written out ([size_t_wrap]).
    - Bit fields are byte buffers, [list Z] with one entry per [uint8_t].
    - Pointers are [nat] addresses, [NULL] being [0]; address [S k] names cell
      [k] of the heap it points into.  A freed cell is [None].
    - A C function that is declared to return a value, or that goes through
      pointers, yields an [outcome]: it returns, reaches its closing brace
      without a [return], or stops at a call or an access that C leaves
      undefined (an invalid pointer, a conversion without its argument).
    - What the C library or the platform decides (whether an allocation
      succeeds, what freshly allocated bytes hold, return codes of pthread
      calls) is read from an [env] record. *)

From Stdlib Require Import ZArith List String Ascii Bool Lia DecimalString.
Import ListNotations.
Local Open Scope Z_scope.

(** ** The C library *)

(** [errno.h] values (Linux). *)
Definition EIO : Z := 5.
Definition ENOMEM : Z := 12.
Definition EINVAL : Z := 22.
Definition ENAMETOOLONG : Z := 36.

(** [size_t] is 64 bits wide; arithmetic on it wraps. *)
Definition SIZE_WIDTH : Z := 64.

Definition size_t_wrap (z : Z) : Z := z mod 2 ^ SIZE_WIDTH.

(** The [%d] conversion. *)
Definition fmt_d (z : Z) : string :=
  if z <? 0 then String "-" (NilZero.string_of_uint (N.to_uint (Z.to_N (- z))))
  else NilZero.string_of_uint (N.to_uint (Z.to_N z)).

(** [overwrite w mem]: memory [mem] after the cells [w] were stored at its
    start. *)
Definition overwrite {A : Type} (w mem : list A) : list A :=
  w ++ skipn (List.length w) mem.

(** [snprintf(str, str_len, ...)] where the conversions produce [s], and
    [mem] is the memory that starts at [str].  At most [str_len] cells are
    stored, the last of them the terminating NUL; the value returned is the
    length [s] would have needed. *)
Definition snprintf (mem : list ascii) (str_len : nat) (s : string)
  : list ascii * Z :=
  match str_len with
  | O => (mem, Z.of_nat (String.length s))
  | S k =>
      (overwrite (list_ascii_of_string (substring 0 k s) ++ [zero]) mem,
       Z.of_nat (String.length s))
  end.

(** The same call seen from a local [char buf[size]]: the C string the
    buffer holds afterwards. *)
Definition snprintf_str (size : nat) (s : string) : string :=
  substring 0 (Nat.pred size) s.

(** ** [util/bitfield.h] *)

Module Bitfield.

(** Modelled from the spec: the header [util/bitfield.h] is missing.  The
    spec names the operations (byte footprint for N bits, test bit, set bit,
    zero-based indices) and the source spells the footprint out as
    [(size + 7) / 8] in [lksmith_realloc_lock_data]. *)
Definition BITFIELD_MEM (n : Z) : Z := (n + 7) / 8.

(** Modelled from the spec: bit [i] lives in byte [i / 8] at position
    [i mod 8].  [None] is an access outside the buffer. *)
Definition BITFIELD_TEST (bf : list Z) (i : Z) : option bool :=
  if i <? 0 then None
  else option_map (fun b => Z.testbit b (i mod 8))
                  (nth_error bf (Z.to_nat (i / 8))).

Fixpoint store_byte (bf : list Z) (k : nat) (f : Z -> Z) : option (list Z) :=
  match bf, k with
  | [], _ => None
  | b :: bf', O => Some (f b :: bf')
  | b :: bf', S k' => option_map (cons b) (store_byte bf' k' f)
  end.

(** Modelled from the spec: set bit [i]; [None] is a store outside the
    buffer. *)
Definition BITFIELD_SET (bf : list Z) (i : Z) : option (list Z) :=
  if i <? 0 then None
  else store_byte bf (Z.to_nat (i / 8))
                  (fun b => Z.lor b (Z.shiftl 1 (i mod 8))).

End Bitfield.
Import Bitfield.

(** ** Version query *)

Section Version.

(** [LKSMITH_API_VERSION] comes from [lksmith.h], which is missing. *)
Variable LKSMITH_API_VERSION : Z.

Definition lksmith_get_version : Z := LKSMITH_API_VERSION.

(** The text the two [%d] conversions and the dot produce. *)
Definition verion_text : string :=
  (fmt_d (Z.land (Z.shiftr LKSMITH_API_VERSION 16) 65535) ++ "." ++
   fmt_d (Z.land LKSMITH_API_VERSION 65535))%string.

(** [int lksmith_verion_to_str(uint32_t ver, char *str, size_t str_len)].
    [mem] is the memory at [str]; the result is that memory afterwards and
    the value returned. *)
Definition lksmith_verion_to_str (ver : Z) (mem : list ascii) (str_len : nat)
  : list ascii * Z :=
  let '(mem', res) := snprintf mem str_len verion_text in
  if res <? 0 then (mem', - EIO)
  else if res >=? Z.of_nat str_len then (mem', - ENAMETOOLONG)
  else (mem', 0).

End Version.

(** The string the spec asks for: the two 16-bit halves of a packed version
    in decimal, separated by a dot. *)
Definition major_minor (ver : Z) : string :=
  (fmt_d (Z.land (Z.shiftr ver 16) 65535) ++ "." ++
   fmt_d (Z.land ver 65535))%string.

(** ** Private data structures *)

(** Minimum size of the before bitfield. *)
Definition LKSMITH_BEFORE_MIN : Z := 16.

Definition ptr : Type := nat.

Definition NULL : ptr := O.

(** The error codes of [lksmith.h] (missing); only their identity matters
    to this file. *)
Inductive lksmith_error : Type :=
| LKSMITH_ERROR_OOM
| LKSMITH_ERROR_CREATE_WHILE_IN_USE
| LKSMITH_ERROR_DESTROY_WHILE_IN_USE
| LKSMITH_ERROR_MULTIPLE_DESTROY
| LKSMITH_ERROR_OTHER (code : Z).

(** [struct lksmith_lock_data]; [before] holds the bytes of the flexible
    array member that the allocation made room for. *)
Record lksmith_lock_data : Type := mk_lock_data {
  lock_name : string;
  nlock : Z;
  lock_id : Z;
  before_size : Z;
  before : list Z
}.

(** [struct lksmith_tls]; [held] is the buffer the pointer refers to. *)
Record lksmith_tls : Type := mk_tls {
  tls_name : string;
  held_size : Z;
  held : list Z
}.

(** [lksmith_error_cb_t]: a callback is known by its identity, and what it
    was called with is recorded in the state. *)
Inductive lksmith_error_cb_t : Type :=
| lksmith_error_cb_to_stderr
| user_error_cb (n : nat).

Record cb_call : Type := mk_cb_call {
  call_cb : lksmith_error_cb_t;
  call_code : lksmith_error;
  call_msg : string
}.

(** ** Globals and memory *)

Record state : Type := mk_state {
  g_tls_key_init : bool;
  g_error_cb : lksmith_error_cb_t;
  g_locks : list ptr;
  g_locks_size : Z;
  g_locks_used : list Z;
  (** [malloc]ed [lksmith_lock_data] blocks *)
  heap : list (option lksmith_lock_data);
  (** [mutex->info.data] of every mutex object *)
  mutex_data : nat -> ptr;
  (** [malloc]ed [lksmith_tls] blocks *)
  tls_heap : list (option lksmith_tls);
  (** [pthread_getspecific(g_tls_key)] in the calling thread *)
  tls_specific : ptr;
  (** the [__thread] variable of [get_or_create_tls] in the calling thread *)
  t_improved_tls : ptr;
  (** calls made to error callbacks, oldest first *)
  cb_log : list cb_call
}.

(** The state the process starts in: zeroed statics, the default callback,
    nothing allocated. *)
Definition initial_state : state :=
  mk_state false lksmith_error_cb_to_stderr [] 0 [] [] (fun _ => NULL)
           [] NULL NULL [].

Inductive outcome (A : Type) : Type :=
| Returns (v : A) (s : state)
| FallsOff (s : state)
| Faults (s : state).

Arguments Returns {A} v s.
Arguments FallsOff {A} s.
Arguments Faults {A} s.

(** What the platform decides during one call. *)
Record env : Type := mk_env {
  (** the C library does not refuse the [realloc] request of
      [lksmith_realloc_lock_data] *)
  realloc_data_ok : bool;
  (** the two [realloc]s in [lksmith_alloc_next_lock_id] succeed *)
  realloc_used_ok : bool;
  realloc_locks_ok : bool;
  (** what a byte obtained from [realloc] holds before it is written *)
  uninit_byte : Z;
  (** what the [%s] conversion of [lksmith_mutex_init] that was passed no
      argument prints *)
  uninit_str : string;
  pthread_key_create_ret : Z;
  calloc_tls_ok : bool;
  calloc_held_ok : bool;
  pthread_setspecific_ret : Z;
  (** the name [platform_create_thread_name] makes up *)
  platform_thread_name : string;
  (** [terror] of [util/platform.h] *)
  terror : Z -> string
}.

(** *** Cells *)

Definition load {A : Type} (h : list (option A)) (p : ptr) : option A :=
  match p with
  | O => None
  | S k => match nth_error h k with Some c => c | None => None end
  end.

Fixpoint set_nth {A : Type} (l : list A) (k : nat) (x : A) : list A :=
  match l, k with
  | [], _ => []
  | _ :: l', O => x :: l'
  | y :: l', S k' => y :: set_nth l' k' x
  end.

Definition store {A : Type} (h : list (option A)) (p : ptr) (x : A)
  : list (option A) :=
  match p with
  | O => h
  | S k => set_nth h k (Some x)
  end.

(** [free(p)]; [free(NULL)] does nothing. *)
Definition free {A : Type} (h : list (option A)) (p : ptr)
  : list (option A) :=
  match p with
  | O => h
  | S k => set_nth h k None
  end.

(** A fresh block: the heap with one more cell, and its address. *)
Definition alloc {A : Type} (h : list (option A)) (x : A)
  : list (option A) * ptr :=
  (h ++ [Some x], S (List.length h)).

Definition set_mutex_data (f : nat -> ptr) (m : nat) (p : ptr) : nat -> ptr :=
  fun m' => if Nat.eqb m' m then p else f m'.

(** *** State updates *)

Definition with_heap (s : state) (h : list (option lksmith_lock_data))
  : state :=
  mk_state (g_tls_key_init s) (g_error_cb s) (g_locks s) (g_locks_size s)
           (g_locks_used s) h (mutex_data s) (tls_heap s) (tls_specific s)
           (t_improved_tls s) (cb_log s).

Definition with_mutex_data (s : state) (f : nat -> ptr) : state :=
  mk_state (g_tls_key_init s) (g_error_cb s) (g_locks s) (g_locks_size s)
           (g_locks_used s) (heap s) f (tls_heap s) (tls_specific s)
           (t_improved_tls s) (cb_log s).

Definition with_registry (s : state) (locks : list ptr) (size : Z)
  (used : list Z) : state :=
  mk_state (g_tls_key_init s) (g_error_cb s) locks size used (heap s)
           (mutex_data s) (tls_heap s) (tls_specific s) (t_improved_tls s)
           (cb_log s).

Definition with_error_cb (s : state) (fn : lksmith_error_cb_t) : state :=
  mk_state (g_tls_key_init s) fn (g_locks s) (g_locks_size s)
           (g_locks_used s) (heap s) (mutex_data s) (tls_heap s)
           (tls_specific s) (t_improved_tls s) (cb_log s).

Definition with_tls (s : state) (key_init : bool)
  (th : list (option lksmith_tls)) (specific improved : ptr) : state :=
  mk_state key_init (g_error_cb s) (g_locks s) (g_locks_size s)
           (g_locks_used s) (heap s) (mutex_data s) th specific improved
           (cb_log s).

(** Calling [cb(code, msg)]. *)
Definition call (s : state) (cb : lksmith_error_cb_t) (code : lksmith_error)
  (msg : string) : state :=
  mk_state (g_tls_key_init s) (g_error_cb s) (g_locks s) (g_locks_size s)
           (g_locks_used s) (heap s) (mutex_data s) (tls_heap s)
           (tls_specific s) (t_improved_tls s)
           (cb_log s ++ [mk_cb_call cb code msg]).

(** ** Error reporting *)

(** [lksmith_print_error_unlocked(err, fmt, ...)], [msg] being the text
    [fmt] and its arguments stand for (the source leaves [fmt] out of the
    [vsnprintf] call): it is cut to the 1024-byte buffer and handed to the
    callback read from [g_error_cb]. *)
Definition lksmith_print_error_unlocked (s : state) (err : lksmith_error)
  (msg : string) : state :=
  let buf := snprintf_str 1024 msg in
  let error_cb := g_error_cb s in
  call s error_cb err buf.

Definition lksmith_error_to_errno (lkerr : lksmith_error) : Z :=
  match lkerr with
  | LKSMITH_ERROR_OOM => ENOMEM
  | LKSMITH_ERROR_DESTROY_WHILE_IN_USE
  | LKSMITH_ERROR_CREATE_WHILE_IN_USE => EINVAL
  | _ => EIO
  end.

Definition lksmith_set_error_cb (s : state) (fn : lksmith_error_cb_t)
  : state :=
  with_error_cb s fn.

(** ** Sequencing *)

Definition bind {A B : Type} (o : outcome A) (k : A -> state -> outcome B)
  : outcome B :=
  match o with
  | Returns v s => k v s
  | FallsOff s => FallsOff s
  | Faults s => Faults s
  end.

(** The state a call ends in, however it ends. *)
Definition final {A : Type} (o : outcome A) : state :=
  match o with
  | Returns _ s | FallsOff s | Faults s => s
  end.

(** An [int] that is [0] or minus an error code. *)
Inductive status : Type :=
| OK
| NEG (err : lksmith_error).

(** An [int] that is a lock id or minus an error code. *)
Inductive id_or_error : Type :=
| Id (i : Z)
| Neg (err : lksmith_error).

(** [realloc] of an array to [n] cells: the old cells as far as they fit,
    then cells holding [junk]. *)
Definition resize {A : Type} (n : nat) (l : list A) (junk : A) : list A :=
  firstn n l ++ repeat junk (n - List.length l).

(** [memset(&b[off], 0, len)]; [None] when the range leaves the buffer. *)
Definition memset_zero (b : list Z) (off len : Z) : option (list Z) :=
  if (0 <=? off) && (0 <=? len) && (off + len <=? Z.of_nat (List.length b))
  then Some (firstn (Z.to_nat off) b ++ repeat 0 (Z.to_nat len) ++
             skipn (Z.to_nat (off + len)) b)
  else None.

Section Locksmith.

(** [LKSMITH_LOCK_NAME_MAX] and [LKSMITH_THREAD_NAME_MAX] come from
    [lksmith.h], [HAVE_IMPROVED_TLS] from [config.h]; both are missing. *)
Variable LKSMITH_LOCK_NAME_MAX : nat.
Variable LKSMITH_THREAD_NAME_MAX : nat.
Variable HAVE_IMPROVED_TLS : bool.

(** [sizeof(struct lksmith_lock_data)]: the name, padded to the alignment of
    [nlock], then 8 + 4 + 4 bytes; the flexible array adds nothing. *)
Definition sizeof_lock_data : Z :=
  8 * ((Z.of_nat LKSMITH_LOCK_NAME_MAX + 7) / 8) + 16.

(** ** Thread-local storage *)

Definition tls_oom_msg : string :=
  "get_or_create_tls(): failed to allocate memory for thread-local storage.".

(** [static struct lksmith_tls *get_or_create_tls(void)].  The source hands
    [&g_tls_lock] to [pthread_key_create] where the key is meant; what the
    call returns is read from the environment either way. *)
Definition get_or_create_tls (e : env) (s : state) : ptr * state :=
  if HAVE_IMPROVED_TLS && negb (Nat.eqb (t_improved_tls s) NULL)
  then (t_improved_tls s, s)
  else
    let ret := if g_tls_key_init s then 0 else pthread_key_create_ret e in
    let s1 :=
      if negb (g_tls_key_init s) && (ret =? 0)
      then with_tls s true (tls_heap s) (tls_specific s) (t_improved_tls s)
      else s in
    if negb (ret =? 0) then
      (NULL,
       lksmith_print_error_unlocked s1 LKSMITH_ERROR_OOM
         ("get_or_create_tls(): pthread_key_create failed with error code "
          ++ fmt_d ret ++ ": " ++ terror e ret))
    else if negb HAVE_IMPROVED_TLS && negb (Nat.eqb (tls_specific s1) NULL)
    then (tls_specific s1, s1)
    else if negb (calloc_tls_ok e) then
      (NULL, lksmith_print_error_unlocked s1 LKSMITH_ERROR_OOM tls_oom_msg)
    else
      let '(th, tls) := alloc (tls_heap s1) (mk_tls "" 0 []) in
      if negb (calloc_held_ok e) then
        let s2 := with_tls s1 (g_tls_key_init s1) (free th tls)
                           (tls_specific s1) (t_improved_tls s1) in
        (NULL, lksmith_print_error_unlocked s2 LKSMITH_ERROR_OOM tls_oom_msg)
      else
        let t :=
          mk_tls (snprintf_str LKSMITH_THREAD_NAME_MAX
                               (platform_thread_name e))
                 LKSMITH_BEFORE_MIN
                 (repeat 0 (Z.to_nat (BITFIELD_MEM LKSMITH_BEFORE_MIN))) in
        let th := store th tls t in
        let ret := pthread_setspecific_ret e in
        if negb (ret =? 0) then
          let s2 := with_tls s1 (g_tls_key_init s1) (free th tls)
                             (tls_specific s1) (t_improved_tls s1) in
          (NULL,
           lksmith_print_error_unlocked s2 LKSMITH_ERROR_OOM
             ("get_or_create_tls(): pthread_setspecific failed with error "
              ++ fmt_d ret ++ ": " ++ terror e ret))
        else
          (tls,
           with_tls s1 (g_tls_key_init s1) th tls
                    (if HAVE_IMPROVED_TLS then tls else t_improved_tls s1)).

(** ** Lock data *)

(** [realloc(p, size)] of the C library where [p] is the address of a
    variable of the program: [p] is not null and is not a block that
    [malloc], [calloc] or [realloc] returned, so C leaves the call undefined.
    The library refuses the request and returns null, or it looks for the
    block at [p], finds none and stops the program.  It hands out no
    block. *)
Definition realloc_variable (e : env) (s : state) (size : Z) : outcome ptr :=
  if realloc_data_ok e then Faults s else Returns NULL s.

(** [static int lksmith_realloc_lock_data(struct lksmith_lock_data **data,
    int new_size)].  The function is static and its one call, in
    [lksmith_mutex_init], passes the address of the local variable [data] of
    that function.  [data] below is the pointer that variable holds on
    entry; the result carries the value returned and the pointer the
    variable holds on exit.

    The source declares a local [size_t new_size] next to the parameter
    [int new_size].  The initialiser of the local reads the parameter (the
    local has no value yet); every later [new_size] is the local, the
    declaration nearest to it.  The local is [new_bytes] here.

    The old size is read through the variable from a member called
    [new_size], which the structure does not have; the one size it has is
    [before_size], and that is what is read.

    [realloc] is given the address of the variable itself, where the block
    the variable points to is meant: [realloc_variable].  What follows the
    call works on the block [new_data] it returned. *)
Definition lksmith_realloc_lock_data (e : env) (s : state) (data : ptr)
  (new_size : Z) : outcome (status * ptr) :=
  let new_bytes := size_t_wrap (sizeof_lock_data + BITFIELD_MEM new_size) in
  let old_size :=
    if Nat.eqb data NULL then Some 0
    else option_map (fun d => size_t_wrap (before_size d))
                    (load (heap s) data) in
  match old_size with
  | None => Faults s
  | Some old_size =>
      bind (realloc_variable e s new_bytes)
        (fun new_data s =>
           if Nat.eqb new_data NULL then
             Returns (NEG LKSMITH_ERROR_OOM, data) s
           else
             match load (heap s) new_data with
             | None => Faults s
             | Some block =>
                 let room := Z.to_nat (new_bytes - sizeof_lock_data) in
                 let cleared :=
                   if old_size =? 0 then
                     (* zero everything *)
                     Some (mk_lock_data "" 0 0 0 (repeat 0 room))
                   else
                     let old_byte_size := size_t_wrap (old_size + 7) / 8 in
                     let new_byte_size := size_t_wrap (new_bytes + 7) / 8 in
                     if new_byte_size >? old_byte_size then
                       option_map
                         (mk_lock_data (lock_name block) (nlock block)
                                       (lock_id block) (before_size block))
                         (memset_zero (before block) old_byte_size
                            (size_t_wrap (new_byte_size - new_bytes)))
                     else Some block in
                 match cleared with
                 | None => Faults s
                 | Some d =>
                     let d' := mk_lock_data (lock_name d) (nlock d)
                                            (lock_id d) new_bytes
                                            (before d) in
                     Returns (OK, new_data)
                             (with_heap s (store (heap s) new_data d'))
                 end
             end)
  end.

(** ** Lock ids *)

(** The [for] loop of [lksmith_alloc_next_lock_id], entered with [i]; the
    fuel counts the iterations left. *)
Fixpoint scan_used (used : list Z) (size : Z) (fuel : nat) (i : Z)
  : option Z :=
  match fuel with
  | O => Some i
  | S fuel' =>
      if i <? size then
        match BITFIELD_TEST used i with
        | None => None
        | Some false => Some i
        | Some true => scan_used used size fuel' (i + 1)
        end
      else Some i
  end.

(** [static int lksmith_alloc_next_lock_id(void)] *)
Definition lksmith_alloc_next_lock_id (e : env) (s : state)
  : outcome id_or_error :=
  match scan_used (g_locks_used s) (g_locks_size s)
                  (Z.to_nat (g_locks_size s)) 0 with
  | None => Faults s
  | Some i =>
      let grown : status * state :=
        if i >? g_locks_size s then
          let s1 :=
            if BITFIELD_MEM i >? BITFIELD_MEM (g_locks_size s) then
              if realloc_used_ok e then
                Some (with_registry s (g_locks s) (g_locks_size s)
                        (resize (Z.to_nat (BITFIELD_MEM i)) (g_locks_used s)
                                (uninit_byte e)))
              else None
            else Some s in
          match s1 with
          | None => (NEG LKSMITH_ERROR_OOM, s)
          | Some s1 =>
              if realloc_locks_ok e then
                (OK, with_registry s1
                       (resize (Z.to_nat i) (g_locks s1)
                               (Z.to_nat (uninit_byte e)))
                       i (g_locks_used s1))
              else (NEG LKSMITH_ERROR_OOM, s1)
          end
        else (OK, s) in
      match grown with
      | (NEG err, s1) => Returns (Neg err) s1
      | (OK, s1) =>
          match BITFIELD_SET (g_locks_used s1) i with
          | None => Faults s1
          | Some used =>
              Returns (Id i)
                      (with_registry s1 (g_locks s1) (g_locks_size s1) used)
          end
      end
  end.

(** ** Lifecycle *)

(** The [error:] label of [lksmith_mutex_init]. *)
Definition init_error (s : state) (data : ptr) (ret : lksmith_error)
  (buf : string) : outcome Z :=
  let error_cb := g_error_cb s in
  let s1 := with_heap s (free (heap s) data) in
  let s2 := call s1 error_cb ret buf in
  Returns (lksmith_error_to_errno ret) s2.

Definition init_msg (name what : string) : string :=
  snprintf_str 256 ("lksmith_mutex_init(" ++ name ++ ") " ++ what).

(** [int lksmith_mutex_init(const char *name, struct lksmith_mutex_t
    *__mutex, const pthread_mutexattr_t *__mutexattr)].  A mutex object is
    known by its number; the attribute is not used by the source.  The first
    [snprintf] has a [%s] and no argument for it. *)
Definition lksmith_mutex_init (e : env) (s : state) (name : string)
  (mutex : nat) : outcome Z :=
  bind (lksmith_realloc_lock_data e s NULL LKSMITH_BEFORE_MIN)
    (fun '(ret, data) s =>
       match ret with
       | NEG _ =>
           init_error s data LKSMITH_ERROR_OOM
             (init_msg (uninit_str e)
                "out of memory trying to allocate lksmith_lock_data.")
       | OK =>
           bind (lksmith_alloc_next_lock_id e s)
             (fun next_lock_id s =>
                match next_lock_id with
                | Neg _ =>
                    init_error s data LKSMITH_ERROR_OOM
                      (init_msg name
                         "out of memory trying to allocate a new lock id.")
                | Id next_lock_id =>
                    match load (heap s) data with
                    | None => Faults s
                    | Some d =>
                        let d' :=
                          mk_lock_data
                            (snprintf_str LKSMITH_LOCK_NAME_MAX name)
                            (nlock d) next_lock_id (before_size d)
                            (before d) in
                        let s := with_heap s (store (heap s) data d') in
                        (* __sync_val_compare_and_swap(&mutex->info.data,
                           NULL, data) *)
                        let prev := mutex_data s mutex in
                        if Nat.eqb prev NULL then
                          Returns 0
                            (with_mutex_data s
                               (set_mutex_data (mutex_data s) mutex data))
                        else
                          init_error s data LKSMITH_ERROR_CREATE_WHILE_IN_USE
                            (init_msg name
                               "this mutex has already been initialized!")
                    end
                end)
       end).

(** What glibc's [%s] conversion prints for a null pointer. *)
Definition null_str : string := "(null)".

(** The [error:] label of [lksmith_mutex_destroy].  With [prev] not null
    the block assigns [error_cb] and [ret] and calls [snprintf] with a
    format that has a [%s] and no argument for it; what the conversion finds
    in the argument's place there is not the address of a string, and the
    call stops at it, so the [goto error] that follows is not reached.  With
    [prev] null control reaches the closing brace.  No callback is called
    and nothing is returned on either way: [ret] and [buf], set before the
    jump to the label, are not used. *)
Definition destroy_error (s : state) (prev : ptr) (ret : lksmith_error)
  (buf : string) : outcome Z :=
  if negb (Nat.eqb prev NULL) then Faults s else FallsOff s.

(** [int lksmith_mutex_destroy(pthread_mutex_t *__mutex)]; the body calls
    the parameter [mutex], as that of [lksmith_mutex_init] does.  [others] is
    what other threads do to the state between the plain read of
    [mutex->info.data] and the compare-and-swap; a call that runs alone has
    [others] the identity.

    [name] is the first member of the structure, so [cur->name] is the
    address [cur] itself: with [cur] null the [%s] conversion is handed a
    null pointer and nothing is read through it. *)
Definition lksmith_mutex_destroy (others : state -> state) (s : state)
  (mutex : nat) : outcome Z :=
  let cur := mutex_data s mutex in
  let cur_name :=
    if Nat.eqb cur NULL then Some null_str
    else option_map lock_name (load (heap s) cur) in
  match cur_name with
  | None => Faults s
  | Some cur_name =>
      let name := snprintf_str LKSMITH_LOCK_NAME_MAX cur_name in
      let s := others s in
      (* __sync_val_compare_and_swap(&mutex->info.data, cur, NULL) *)
      let prev := mutex_data s mutex in
      if negb (Nat.eqb prev cur) then
        if Nat.eqb prev NULL then
          destroy_error s prev LKSMITH_ERROR_MULTIPLE_DESTROY
            (snprintf_str 256
               ("lksmith_mutex_destroy(" ++ name ++
                "):this mutex has already been destroyed!"))
        else
          destroy_error s prev LKSMITH_ERROR_DESTROY_WHILE_IN_USE
            (snprintf_str 256
               ("lksmith_mutex_destroy(" ++ name ++
                "):this mutex was modified during its destruction!"))
      else
        let s :=
          with_mutex_data s (set_mutex_data (mutex_data s) mutex NULL) in
        Returns 0 (with_heap s (free (heap s) prev))
  end.

(** ** Lock operations *)

(** [int lksmith_pthread_mutex_lock(pthread_mutex_t *__mutex)]: the body is
    empty. *)
Definition lksmith_pthread_mutex_lock (s : state) (mutex : nat) : outcome Z :=
  FallsOff s.

(** [int lksmith_pthread_mutex_trylock(pthread_mutex_t *__mutex, int
    bypass)]: the body is empty. *)
Definition lksmith_pthread_mutex_trylock (s : state) (mutex : nat)
  (bypass : Z) : outcome Z :=
  FallsOff s.

(** [int lksmith_pthread_mutex_timedlock(pthread_mutex_t *__mutex, const
    struct timespec *__abstime)]: the body is empty. *)
Definition lksmith_pthread_mutex_timedlock (s : state) (mutex : nat)
  (abstime : Z) : outcome Z :=
  FallsOff s.

(** [int lksmith_pthread_mutex_unlock(pthread_mutex_t *__mutex)]: the body
    is empty. *)
Definition lksmith_pthread_mutex_unlock (s : state) (mutex : nat)
  : outcome Z :=
  FallsOff s.

(** ** Thread names *)

(** [void lksmith_set_thread_name(const char *const name)] *)
Definition lksmith_set_thread_name (e : env) (s : state) (name : string)
  : outcome unit :=
  let '(tls, s) := get_or_create_tls e s in
  let s :=
    if Nat.eqb tls NULL then
      lksmith_print_error_unlocked s LKSMITH_ERROR_OOM
        ("lksmith_set_thread_name(" ++ name ++
         "): failed to allocate thread-local storage.")
    else s in
  match load (tls_heap s) tls with
  | None => Faults s
  | Some t =>
      let t' := mk_tls (snprintf_str LKSMITH_THREAD_NAME_MAX name)
                       (held_size t) (held t) in
      Returns tt
        (with_tls s (g_tls_key_init s) (store (tls_heap s) tls t')
                  (tls_specific s) (t_improved_tls s))
  end.

End Locksmith.

(** ** What the spec says of an acquisition *)

(** Following the spec's words: lock id [h] is set in the calling thread's
    [held] bitset. *)
Definition held_by_caller (s : state) (h : Z) : bool :=
  match load (tls_heap s) (tls_specific s) with
  | Some t =>
      match BITFIELD_TEST (held t) h with Some b => b | None => false end
  | None => false
  end.

(** Following the spec's words: the LockRecord of lock id [h], found through
    the registry table, has lock id [j] set in its [before] set. *)
Definition before_has (s : state) (h j : Z) : bool :=
  match load (heap s) (nth (Z.to_nat h) (g_locks s) NULL) with
  | Some d =>
      match BITFIELD_TEST (before d) j with Some b => b | None => false end
  | None => false
  end.

(** Following the spec's words: the acquisition of [mutex] by the calling
    thread contradicts the recorded order because of the held lock [h]. *)
Definition order_violation (s : state) (mutex : nat) (h : Z) : bool :=
  match load (heap s) (mutex_data s mutex) with
  | Some d => held_by_caller s h && before_has s h (lock_id d)
  | None => false
  end.

(** Following the spec's words: no clear bit exists within the current
    capacity of the registry. *)
Definition registry_full (s : state) : bool :=
  forallb
    (fun k =>
       match BITFIELD_TEST (g_locks_used s) (Z.of_nat k) with
       | Some true => true
       | _ => false
       end)
    (seq 0 (Z.to_nat (g_locks_size s))).

(** The lock id of the record a mutex is bound to. *)
Definition lock_id_of (s : state) (mutex : nat) : option Z :=
  option_map lock_id (load (heap s) (mutex_data s mutex)).

(** ** Scenarios *)

Definition env_ok : env :=
  mk_env true true true 170 "?" 0 true true 0 "thread"
         (fun _ => "error"%string).

(** The record cannot be allocated. *)
Definition env_oom : env :=
  mk_env false true true 170 "?" 0 true true 0 "thread"
         (fun _ => "error"%string).

(** [calloc] of the thread-local structure fails. *)
Definition env_no_tls : env :=
  mk_env true true true 170 "?" 0 false true 0 "thread"
         (fun _ => "error"%string).

Definition lock_a : lksmith_lock_data := mk_lock_data "a" 0 0 16 [0; 0].

(** One tracked lock: slot 0 of a one-slot registry is used, its record is
    bound to mutex 0. *)
Definition one_lock : state :=
  mk_state false lksmith_error_cb_to_stderr [1%nat] 1 [1] [Some lock_a]
           (set_mutex_data (fun _ => NULL) 0 1%nat) [] NULL NULL [].

(** Eight tracked locks fill an eight-slot registry. *)
Definition eight_locks : state :=
  mk_state false lksmith_error_cb_to_stderr (seq 1 8) 8 [255]
           (map (fun i => Some (mk_lock_data "l" 0 (Z.of_nat i) 16 [0; 0]))
                (seq 0 8))
           (fun m => if Nat.ltb m 8 then S m else NULL) [] NULL NULL [].

(** Two tracked locks, a (id 0, mutex 0) and b (id 1, mutex 1).  Lock b
    was once taken while a was held, so b's [before] set has bit 0.  The
    calling thread now holds b. *)
Definition holding_b : state :=
  mk_state true lksmith_error_cb_to_stderr [1%nat; 2%nat] 2 [3]
           [Some lock_a; Some (mk_lock_data "b" 1 1 16 [1; 0])]
           (set_mutex_data (set_mutex_data (fun _ => NULL) 0 1%nat) 1 2%nat)
           [Some (mk_tls "t" 16 [2; 0])] 1%nat 1%nat [].

(** Another thread clears the association of mutex 0, as a successful
    destroy of its own does. *)
Definition other_destroys (s : state) : state :=
  with_mutex_data s (set_mutex_data (mutex_data s) 0 NULL).

(** Another thread destroys mutex 0 and binds it to a new record. *)
Definition other_reinits (s : state) : state :=
  let '(h, p) := alloc (free (heap s) (mutex_data s 0%nat))
                       (mk_lock_data "a" 0 1 16 [0; 0]) in
  with_heap (with_mutex_data s (set_mutex_data (mutex_data s) 0 p)) h.

(** A process as it starts, but for one mutex object: the [info.data] of
    mutex 0 holds the address of a lock record. *)
Definition bound_mutex : state :=
  mk_state false lksmith_error_cb_to_stderr [] 0 [] [Some lock_a]
           (set_mutex_data (fun _ => NULL) 0 1%nat) [] NULL NULL [].

(** [all_bits d acc f]: [f] holds of every integer whose binary writing is
    that of [acc] followed by [d] more bits. *)
Fixpoint all_bits (d : nat) (acc : Z) (f : Z -> bool) : bool :=
  match d with
  | O => f acc
  | S d' => all_bits d' (2 * acc) f && all_bits d' (2 * acc + 1) f
  end.

(** Three slots, the first one used by lock a. *)
Definition three_slots : state :=
  mk_state false lksmith_error_cb_to_stderr [1%nat; NULL; NULL] 3 [1]
           [Some lock_a] (set_mutex_data (fun _ => NULL) 0 1%nat)
           [] NULL NULL [].

(** ** Thread-local handles *)

(** What [get_or_create_tls] looks at before it allocates: with
    [HAVE_IMPROVED_TLS] the [__thread] variable, without it the key and the
    value stored under it.  [tls_ready H s p]: the calling thread will be
    handed [p] on these grounds. *)
Definition tls_ready (H : bool) (s : state) (p : ptr) : Prop :=
  p <> NULL /\
  if H then t_improved_tls s = p
  else g_tls_key_init s = true /\ tls_specific s = p.

(** * Properties *)

(** ** Version query *)

Lemma substring_whole (s : string) (k : nat) :
  (String.length s <= k)%nat -> substring 0 k s = s.
Proof.
  revert k; induction s as [|c s IH]; intros [|k] Hk; simpl in *;
    try reflexivity; try lia.
  f_equal; apply IH; lia.
Qed.

Lemma substring_length (s : string) (k : nat) :
  (k <= String.length s)%nat -> String.length (substring 0 k s) = k.
Proof.
  revert k; induction s as [|c s IH]; intros [|k] Hk; simpl in *;
    try reflexivity; try lia.
  f_equal; apply IH; lia.
Qed.

Lemma length_list_ascii_of_string (s : string) :
  List.length (list_ascii_of_string s) = String.length s.
Proof. induction s; simpl; congruence. Qed.

Lemma verion_text_major_minor (api : Z) : verion_text api = major_minor api.
Proof. reflexivity. Qed.

(** Without room for the text and its NUL the call returns
    [-ENAMETOOLONG], and the memory from cell [str_len] on is as it was. *)
Lemma verion_to_str_undersized (api ver : Z) (mem : list ascii)
  (str_len : nat) :
  (str_len <= String.length (major_minor api))%nat ->
  (str_len <= List.length mem)%nat ->
  snd (lksmith_verion_to_str api ver mem str_len) = - ENAMETOOLONG /\
  skipn str_len (fst (lksmith_verion_to_str api ver mem str_len)) =
    skipn str_len mem /\
  List.length (fst (lksmith_verion_to_str api ver mem str_len)) =
    List.length mem.
Proof.
  intros Hlen Hmem. unfold lksmith_verion_to_str, snprintf.
  rewrite verion_text_major_minor.
  set (s := major_minor api) in *.
  assert (Hres : (Z.of_nat (String.length s) <? 0) = false)
    by (apply Z.ltb_ge; lia).
  assert (Hbig : (Z.of_nat (String.length s) >=? Z.of_nat str_len) = true)
    by (apply Z.geb_le; lia).
  destruct str_len as [|k]; rewrite Hres, Hbig; cbn [fst snd].
  - repeat split; reflexivity.
  - assert (Hw : List.length
                   (list_ascii_of_string (substring 0 k s) ++ [zero]) = S k).
    { rewrite length_app, length_list_ascii_of_string, substring_length
        by lia. simpl; lia. }
    unfold overwrite. rewrite Hw. repeat split.
    + rewrite skipn_app, Hw, Nat.sub_diag.
      rewrite skipn_all2 by lia. reflexivity.
    + rewrite length_app, Hw, length_skipn. lia.
Qed.

(** C10.  Two calls of the version-to-string operation on the same
    destination and length give the same memory and the same return value
    whatever their [ver] arguments are: both are what [snprintf] makes of the
    two halves of the compiled-in [LKSMITH_API_VERSION]. *)
Theorem verion_to_str_ignores_ver :
  forall (api ver1 ver2 : Z) (mem : list ascii) (str_len : nat),
    lksmith_verion_to_str api ver1 mem str_len =
      lksmith_verion_to_str api ver2 mem str_len /\
    fst (lksmith_verion_to_str api ver1 mem str_len) =
      fst (snprintf mem str_len (major_minor api)).
Proof.
  intros api ver1 ver2 mem str_len. split; [reflexivity|].
  unfold lksmith_verion_to_str. rewrite verion_text_major_minor.
  destruct (snprintf mem str_len (major_minor api)) as [mem' res].
  destruct (res <? 0); [reflexivity|].
  destruct (res >=? Z.of_nat str_len); reflexivity.
Qed.

(** C7.  With room for the text and its NUL, what is stored is the
    MAJOR.MINOR text of the compiled-in [LKSMITH_API_VERSION], whatever
    packed version [ver] was passed, and 0 is returned. *)
Theorem verion_to_str_prints_the_constant :
  forall (api ver : Z) (mem : list ascii) (str_len : nat),
    (String.length (major_minor api) < str_len)%nat ->
    lksmith_verion_to_str api ver mem str_len =
      (overwrite (list_ascii_of_string (major_minor api) ++ [zero]) mem, 0).
Proof.
  intros api ver mem str_len Hlen. unfold lksmith_verion_to_str, snprintf.
  rewrite verion_text_major_minor.
  destruct str_len as [|k]; [lia|].
  rewrite substring_whole by lia.
  destruct (Z.ltb_spec (Z.of_nat (String.length (major_minor api))) 0);
    [lia|].
  destruct (Z.geb_spec (Z.of_nat (String.length (major_minor api)))
                       (Z.of_nat (S k))); [lia|reflexivity].
Qed.

(** With the constant 1.0 (0x00010000), the argument 2.3 (0x00020003) and
    16 cells, the text stored is 1.0. *)
Lemma verion_to_str_prints_the_constant_witness :
  (String.length (major_minor 65536) < 16)%nat /\
  lksmith_verion_to_str 65536 131075 (repeat "x"%char 16) 16 =
    (overwrite (list_ascii_of_string (major_minor 65536) ++ [zero])
               (repeat "x"%char 16), 0).
Proof.
  assert (H1 : (String.length (major_minor 65536) < 16)%nat)
    by (vm_compute; lia).
  exact (conj H1
           (verion_to_str_prints_the_constant 65536 131075
              (repeat "x"%char 16) 16 H1)).
Defined.

(** The same call, spelled out: 1.0 and its NUL are stored where the
    argument asks for 2.3. *)
Lemma verion_to_str_1_0_for_2_3 :
  lksmith_verion_to_str 65536 131075 (repeat "x"%char 16) 16 =
    (list_ascii_of_string "1.0" ++ [zero] ++ repeat "x"%char 12, 0) /\
  major_minor 131075 = "2.3"%string.
Proof. split; reflexivity. Qed.

(** ** Lock operations *)

Lemma mutex_lock_does_nothing (s : state) (mutex : nat) :
  lksmith_pthread_mutex_lock s mutex = FallsOff s.
Proof. reflexivity. Qed.

(** C1.  The calling thread holds lock b (id 1), whose [before] set
    contains lock a (id 0), and acquires a: the recorded order is
    contradicted.  Yet in every state [lksmith_pthread_mutex_lock] reaches
    its closing brace with the state as it was: no callback is called and no
    value is returned. *)
Theorem mutex_lock_reports_nothing :
  order_violation holding_b 0 1 = true /\
  forall (s : state) (mutex : nat),
    lksmith_pthread_mutex_lock s mutex = FallsOff s /\
    cb_log (final (lksmith_pthread_mutex_lock s mutex)) = cb_log s.
Proof.
  split; [reflexivity|]. intros s mutex.
  rewrite mutex_lock_does_nothing. split; reflexivity.
Qed.

(** ** The lock registry *)

Section Registry.

Variables (used : list Z) (size : Z).

(** The scan stops at or after where it starts, and within the capacity
    when it starts there. *)
Lemma scan_used_range (fuel : nat) (i j : Z) :
  scan_used used size fuel i = Some j -> i <= j <= Z.max i size.
Proof.
  revert i; induction fuel as [|fuel IH]; intros i H; simpl in H.
  - inversion H; lia.
  - destruct (Z.ltb_spec i size).
    + destruct (BITFIELD_TEST used i) as [[|]|]; try discriminate.
      * apply IH in H. lia.
      * inversion H; lia.
    + inversion H; lia.
Qed.

(** Every bit the scan went past is set. *)
Lemma scan_used_passed (fuel : nat) (i j : Z) :
  scan_used used size fuel i = Some j ->
  forall k, i <= k < j -> BITFIELD_TEST used k = Some true.
Proof.
  revert i; induction fuel as [|fuel IH]; intros i H k Hk; simpl in H.
  - inversion H; lia.
  - destruct (Z.ltb_spec i size).
    + destruct (BITFIELD_TEST used i) as [[|]|] eqn:Hi; try discriminate.
      * destruct (Z.eq_dec k i) as [->|]; [exact Hi|].
        apply (IH (i + 1)); [exact H|lia].
      * inversion H; lia.
    + inversion H; lia.
Qed.

(** With fuel for the whole range, a scan that stops inside the capacity
    stops at a clear bit. *)
Lemma scan_used_stops_clear (fuel : nat) (i j : Z) :
  scan_used used size fuel i = Some j ->
  size - i <= Z.of_nat fuel -> j < size ->
  BITFIELD_TEST used j = Some false.
Proof.
  revert i; induction fuel as [|fuel IH]; intros i H Hfuel Hj; simpl in H.
  - inversion H; lia.
  - destruct (Z.ltb_spec i size).
    + destruct (BITFIELD_TEST used i) as [[|]|] eqn:Hi; try discriminate.
      * apply (IH (i + 1)); [exact H|lia|exact Hj].
      * inversion H; subst; exact Hi.
    + inversion H; lia.
Qed.

End Registry.

Lemma store_byte_nth (bf bf' : list Z) (k : nat) (f : Z -> Z) :
  store_byte bf k f = Some bf' ->
  exists b, nth_error bf k = Some b /\ nth_error bf' k = Some (f b) /\
            List.length bf' = List.length bf.
Proof.
  revert bf' k; induction bf as [|b bf IH]; intros bf' [|k] H; simpl in H;
    try discriminate.
  - inversion H; subst. exists b. repeat split.
  - destruct (store_byte bf k f) as [l|] eqn:Hl; try discriminate.
    inversion H; subst. destruct (IH _ _ Hl) as (b0 & H1 & H2 & H3).
    exists b0. simpl. repeat split; auto.
Qed.

(** A bit that [BITFIELD_SET] stored reads back as set, in a buffer of the
    same length. *)
Lemma BITFIELD_SET_TEST (bf bf' : list Z) (i : Z) :
  BITFIELD_SET bf i = Some bf' ->
  BITFIELD_TEST bf' i = Some true /\ List.length bf' = List.length bf.
Proof.
  unfold BITFIELD_SET, BITFIELD_TEST.
  destruct (Z.ltb_spec i 0) as [Hneg|Hpos]; [discriminate|]. intros Hs.
  destruct (store_byte_nth _ _ _ _ Hs) as (b & _ & Hb & Hlen).
  rewrite Hb. simpl. split; [|exact Hlen]. f_equal.
  assert (0 <= i mod 8) by (apply Z.mod_pos_bound; lia).
  rewrite Z.lor_spec, Z.shiftl_spec, Z.sub_diag by lia.
  apply orb_true_r.
Qed.

(** The comparison [i > g_locks_size] after the loop never holds, so the
    branch that reallocates is not entered: whatever the call does, the
    table and its size are as before, and so is the length of the used
    bitmap. *)
Lemma alloc_next_lock_id_never_grows (e : env) (s : state) :
  0 <= g_locks_size s ->
  g_locks_size (final (lksmith_alloc_next_lock_id e s)) = g_locks_size s /\
  g_locks (final (lksmith_alloc_next_lock_id e s)) = g_locks s /\
  List.length (g_locks_used (final (lksmith_alloc_next_lock_id e s))) =
    List.length (g_locks_used s).
Proof.
  intros Hsize. unfold lksmith_alloc_next_lock_id.
  destruct (scan_used _ _ _ _) as [i|] eqn:Hscan; [|repeat split].
  apply scan_used_range in Hscan.
  destruct (Z.gtb_spec i (g_locks_size s)); [lia|].
  destruct (BITFIELD_SET (g_locks_used s) i) as [u|] eqn:Hset;
    [|repeat split].
  apply BITFIELD_SET_TEST in Hset. simpl. repeat split. apply Hset.
Qed.

(** When the call returns an id, it is the lowest index whose used bit is
    clear if there is one within the capacity, and the capacity itself
    otherwise; its used bit is set on return. *)
Lemma alloc_next_lock_id_lowest (e : env) (s s' : state) (i : Z) :
  0 <= g_locks_size s ->
  lksmith_alloc_next_lock_id e s = Returns (Id i) s' ->
  0 <= i <= g_locks_size s /\
  (forall k, 0 <= k < i -> BITFIELD_TEST (g_locks_used s) k = Some true) /\
  (i < g_locks_size s -> BITFIELD_TEST (g_locks_used s) i = Some false) /\
  BITFIELD_TEST (g_locks_used s') i = Some true.
Proof.
  intros Hsize. unfold lksmith_alloc_next_lock_id.
  destruct (scan_used _ _ _ _) as [j|] eqn:Hscan; [|discriminate].
  pose proof (scan_used_range _ _ _ _ _ Hscan) as Hr.
  destruct (Z.gtb_spec j (g_locks_size s)) as [Hgt|Hle]; [lia|].
  destruct (BITFIELD_SET (g_locks_used s) j) as [u|] eqn:Hset;
    [|discriminate].
  intros Hret; inversion Hret; subst. simpl.
  split; [lia|]. split; [|split].
  - intros k Hk. apply (scan_used_passed _ _ _ _ _ Hscan); lia.
  - intros Hlt. apply (scan_used_stops_clear _ _ _ _ _ Hscan); lia.
  - apply (BITFIELD_SET_TEST _ _ _ Hset).
Qed.

Lemma registry_full_bits (s : state) :
  registry_full s = true ->
  forall k, 0 <= k < g_locks_size s ->
            BITFIELD_TEST (g_locks_used s) k = Some true.
Proof.
  unfold registry_full. rewrite forallb_forall. intros Hall k Hk.
  specialize (Hall (Z.to_nat k)). rewrite Z2Nat.id in Hall by lia.
  destruct (BITFIELD_TEST (g_locks_used s) k) as [[|]|];
    try reflexivity; (assert (false = true); [|discriminate]);
    apply Hall, in_seq; lia.
Qed.

(** Over a range of set bits the scan runs to the capacity. *)
Lemma scan_used_full (used : list Z) (size : Z) (fuel : nat) (i : Z) :
  (forall k, i <= k < size -> BITFIELD_TEST used k = Some true) ->
  i <= size -> size - i <= Z.of_nat fuel ->
  scan_used used size fuel i = Some size.
Proof.
  revert i; induction fuel as [|fuel IH]; intros i Hset Hi Hfuel; simpl.
  - f_equal; lia.
  - destruct (Z.ltb_spec i size) as [Hlt|Hge]; [|f_equal; lia].
    rewrite Hset by lia. apply IH; [intros k Hk; apply Hset; lia|lia|lia].
Qed.

(** On a full registry the call is the store of the bit at the capacity
    and nothing else. *)
Lemma alloc_next_lock_id_full (e : env) (s : state) :
  0 <= g_locks_size s ->
  registry_full s = true ->
  lksmith_alloc_next_lock_id e s =
    match BITFIELD_SET (g_locks_used s) (g_locks_size s) with
    | None => Faults s
    | Some used =>
        Returns (Id (g_locks_size s))
                (with_registry s (g_locks s) (g_locks_size s) used)
    end.
Proof.
  intros Hsize Hfull. unfold lksmith_alloc_next_lock_id.
  rewrite scan_used_full;
    [|intros k Hk; apply registry_full_bits; [exact Hfull|lia]|lia|lia].
  destruct (Z.gtb_spec (g_locks_size s) (g_locks_size s)); [lia|].
  reflexivity.
Qed.

Lemma store_byte_some (bf : list Z) (k : nat) (f : Z -> Z) :
  (k < List.length bf)%nat -> exists bf', store_byte bf k f = Some bf'.
Proof.
  revert k; induction bf as [|b bf IH]; intros [|k] Hk; simpl in *;
    try lia.
  - eexists; reflexivity.
  - destruct (IH k) as [l Hl]; [lia|]. rewrite Hl. eexists; reflexivity.
Qed.

Lemma store_byte_nth_other (bf bf' : list Z) (k j : nat) (f : Z -> Z) :
  store_byte bf k f = Some bf' -> j <> k ->
  nth_error bf' j = nth_error bf j.
Proof.
  revert bf' k j; induction bf as [|b bf IH]; intros bf' [|k] [|j] Hs Hj;
    simpl in Hs; try discriminate; try contradiction.
  - inversion Hs; reflexivity.
  - destruct (store_byte bf k f); inversion Hs; reflexivity.
  - destruct (store_byte bf k f) as [l|] eqn:Hl; inversion Hs; subst.
    simpl. apply (IH _ _ _ Hl). congruence.
Qed.

(** Setting a bit leaves the set bits set. *)
Lemma BITFIELD_SET_keeps (bf bf' : list Z) (i k : Z) :
  BITFIELD_SET bf i = Some bf' ->
  BITFIELD_TEST bf k = Some true -> BITFIELD_TEST bf' k = Some true.
Proof.
  unfold BITFIELD_SET, BITFIELD_TEST.
  destruct (Z.ltb_spec i 0) as [Hi|Hi]; [discriminate|].
  destruct (Z.ltb_spec k 0) as [Hk|Hk]; [discriminate|].
  intros Hs Ht.
  destruct (Nat.eq_dec (Z.to_nat (k / 8)) (Z.to_nat (i / 8))) as [Heq|Hne].
  - rewrite Heq in *.
    destruct (store_byte_nth _ _ _ _ Hs) as (b & Hb & Hb' & _).
    rewrite Hb in Ht. rewrite Hb'. simpl in *. inversion Ht as [Hbit].
    rewrite Hbit. f_equal. rewrite Z.lor_spec, Hbit. reflexivity.
  - rewrite (store_byte_nth_other _ _ _ _ _ Hs Hne). exact Ht.
Qed.

Lemma registry_full_set (s : state) (locks : list ptr) (used : list Z)
  (i : Z) :
  registry_full s = true ->
  BITFIELD_SET (g_locks_used s) i = Some used ->
  registry_full (with_registry s locks (g_locks_size s) used) = true.
Proof.
  intros Hfull Hset. unfold registry_full. apply forallb_forall.
  intros k Hk. apply in_seq in Hk. cbn [with_registry g_locks_used] in *.
  rewrite (BITFIELD_SET_keeps _ _ _ _ Hset); [reflexivity|].
  apply registry_full_bits; [exact Hfull|]. simpl in Hk. lia.
Qed.

(** C4.  When no clear bit exists within the capacity, the allocation
    grows nothing: the table, its size and the length of the used bitmap are
    what they were, and the call either stores outside the bitmap or returns
    the capacity itself as the new id. *)
Theorem alloc_next_lock_id_full_registry :
  forall (e : env) (s : state),
    0 <= g_locks_size s ->
    registry_full s = true ->
    g_locks_size (final (lksmith_alloc_next_lock_id e s)) = g_locks_size s /\
    g_locks (final (lksmith_alloc_next_lock_id e s)) = g_locks s /\
    List.length (g_locks_used (final (lksmith_alloc_next_lock_id e s))) =
      List.length (g_locks_used s) /\
    (lksmith_alloc_next_lock_id e s = Faults s \/
     exists s' : state,
       lksmith_alloc_next_lock_id e s = Returns (Id (g_locks_size s)) s').
Proof.
  intros e s Hsize Hfull.
  destruct (alloc_next_lock_id_never_grows e s Hsize) as (H1 & H2 & H3).
  repeat split; try assumption.
  rewrite (alloc_next_lock_id_full e s Hsize Hfull).
  destruct (BITFIELD_SET (g_locks_used s) (g_locks_size s)) as [u|].
  - right. eexists; reflexivity.
  - left. reflexivity.
Qed.

Lemma alloc_next_lock_id_full_registry_witness :
  (0 <= g_locks_size eight_locks /\ registry_full eight_locks = true) /\
  g_locks_size (final (lksmith_alloc_next_lock_id env_ok eight_locks)) =
    g_locks_size eight_locks /\
  g_locks (final (lksmith_alloc_next_lock_id env_ok eight_locks)) =
    g_locks eight_locks /\
  List.length
    (g_locks_used (final (lksmith_alloc_next_lock_id env_ok eight_locks))) =
    List.length (g_locks_used eight_locks) /\
  (lksmith_alloc_next_lock_id env_ok eight_locks = Faults eight_locks \/
   exists s' : state,
     lksmith_alloc_next_lock_id env_ok eight_locks =
       Returns (Id (g_locks_size eight_locks)) s').
Proof.
  assert (H1 : 0 <= g_locks_size eight_locks) by (simpl; lia).
  assert (H2 : registry_full eight_locks = true) by reflexivity.
  exact (conj (conj H1 H2)
              (alloc_next_lock_id_full_registry env_ok eight_locks H1 H2)).
Defined.

(** The first allocation of the process, and an allocation from eight used
    slots, store outside the bitmap. *)
Lemma alloc_next_lock_id_out_of_bounds (e : env) :
  lksmith_alloc_next_lock_id e initial_state = Faults initial_state /\
  lksmith_alloc_next_lock_id e eight_locks = Faults eight_locks.
Proof. split; reflexivity. Qed.

(** C8.  When the scan exhausts the capacity and the allocation returns,
    the used bit it has set is at index [i] equal to the capacity, which is
    unchanged, as is the table: the capacity is not greater than [i] and the
    growth branch was not taken. *)
Theorem alloc_next_lock_id_sets_bit_at_capacity :
  forall (e : env) (s s' : state) (i : Z),
    0 <= g_locks_size s ->
    registry_full s = true ->
    lksmith_alloc_next_lock_id e s = Returns (Id i) s' ->
    BITFIELD_TEST (g_locks_used s') i = Some true /\
    i = g_locks_size s /\
    g_locks_size s' = g_locks_size s /\
    g_locks s' = g_locks s.
Proof.
  intros e s s' i Hsize Hfull Hret.
  pose proof (alloc_next_lock_id_lowest e s s' i Hsize Hret)
    as (_ & _ & _ & Hbit).
  rewrite (alloc_next_lock_id_full e s Hsize Hfull) in Hret.
  destruct (BITFIELD_SET (g_locks_used s) (g_locks_size s)) as [u|];
    [|discriminate].
  inversion Hret; subst. repeat split; assumption.
Qed.

Lemma alloc_next_lock_id_sets_bit_at_capacity_witness :
  (0 <= g_locks_size one_lock /\ registry_full one_lock = true /\
   lksmith_alloc_next_lock_id env_ok one_lock =
     Returns (Id 1) (with_registry one_lock [1%nat] 1 [3])) /\
  BITFIELD_TEST (g_locks_used (with_registry one_lock [1%nat] 1 [3])) 1 =
    Some true /\
  1 = g_locks_size one_lock /\
  g_locks_size (with_registry one_lock [1%nat] 1 [3]) =
    g_locks_size one_lock /\
  g_locks (with_registry one_lock [1%nat] 1 [3]) = g_locks one_lock.
Proof.
  assert (H1 : 0 <= g_locks_size one_lock) by (simpl; lia).
  assert (H2 : registry_full one_lock = true) by reflexivity.
  assert (H3 : lksmith_alloc_next_lock_id env_ok one_lock =
               Returns (Id 1) (with_registry one_lock [1%nat] 1 [3]))
    by reflexivity.
  exact (conj (conj H1 (conj H2 H3))
              (alloc_next_lock_id_sets_bit_at_capacity env_ok one_lock _ 1
                 H1 H2 H3)).
Defined.

(** ** Destroy *)

Lemma destroy_error_state (s : state) (prev : ptr) (ret : lksmith_error)
  (buf : string) :
  final (destroy_error s prev ret buf) = s.
Proof. unfold destroy_error. destruct (negb _); reflexivity. Qed.

Lemma destroy_error_not_returns (s s' : state) (prev : ptr)
  (ret : lksmith_error) (buf : string) (v : Z) :
  destroy_error s prev ret buf <> Returns v s'.
Proof. unfold destroy_error. destruct (negb _); discriminate. Qed.

(** The association is the same at the compare-and-swap as at the read,
    null or the address of a record: the swap is made, the record if any is
    freed and 0 is returned. *)
Lemma mutex_destroy_wins (N : nat) (others : state -> state) (s : state)
  (mutex : nat) :
  mutex_data s mutex = NULL \/ load (heap s) (mutex_data s mutex) <> None ->
  mutex_data (others s) mutex = mutex_data s mutex ->
  lksmith_mutex_destroy N others s mutex =
    Returns 0
      (with_heap
         (with_mutex_data (others s)
            (set_mutex_data (mutex_data (others s)) mutex NULL))
         (free (heap (others s)) (mutex_data s mutex))).
Proof.
  intros Hcur Hsame. unfold lksmith_mutex_destroy. rewrite Hsame.
  destruct Hcur as [Hnull|Hlive].
  - rewrite Hnull. reflexivity.
  - destruct (Nat.eqb (mutex_data s mutex) NULL);
      [rewrite Nat.eqb_refl; reflexivity|].
    destruct (load (heap s) (mutex_data s mutex)); [|contradiction].
    cbn [option_map]. rewrite Nat.eqb_refl. reflexivity.
Qed.

(** The association of a bound mutex was cleared by another thread before
    the compare-and-swap: the multiple-destroy branch ends at the closing
    brace. *)
Lemma mutex_destroy_cleared (N : nat) (others : state -> state) (s : state)
  (mutex : nat) (d : lksmith_lock_data) :
  load (heap s) (mutex_data s mutex) = Some d ->
  mutex_data (others s) mutex = NULL ->
  lksmith_mutex_destroy N others s mutex = FallsOff (others s).
Proof.
  intros Hd Hnull. unfold lksmith_mutex_destroy. rewrite Hd, Hnull.
  destruct (mutex_data s mutex) as [|k]; [discriminate|]. reflexivity.
Qed.

(** The mutex had another, non-null association at the compare-and-swap:
    the destroy-while-in-use branch stops in the [snprintf] of the [error:]
    label. *)
Lemma mutex_destroy_rebound (N : nat) (others : state -> state) (s : state)
  (mutex : nat) :
  mutex_data s mutex = NULL \/ load (heap s) (mutex_data s mutex) <> None ->
  mutex_data (others s) mutex <> mutex_data s mutex ->
  mutex_data (others s) mutex <> NULL ->
  lksmith_mutex_destroy N others s mutex = Faults (others s).
Proof.
  intros Hcur Hne Hnn. unfold lksmith_mutex_destroy, destroy_error.
  assert (Hname : exists n,
            (if Nat.eqb (mutex_data s mutex) NULL then Some null_str
             else option_map lock_name (load (heap s) (mutex_data s mutex)))
            = Some n).
  { destruct Hcur as [Hnull|Hlive].
    - rewrite Hnull. eexists; reflexivity.
    - destruct (Nat.eqb (mutex_data s mutex) NULL);
        [eexists; reflexivity|].
      destruct (load (heap s) (mutex_data s mutex));
        [eexists; reflexivity|contradiction]. }
  destruct Hname as [n Hn]. rewrite Hn.
  destruct (Nat.eqb_spec (mutex_data (others s) mutex) (mutex_data s mutex))
    as [Heq|_]; [contradiction|].
  destruct (Nat.eqb_spec (mutex_data (others s) mutex) NULL) as [Heq|_];
    [contradiction|].
  reflexivity.
Qed.

(** A non-null association under which no record lives: the name is read
    through it. *)
Lemma mutex_destroy_dangling (N : nat) (others : state -> state) (s : state)
  (mutex : nat) :
  mutex_data s mutex <> NULL ->
  load (heap s) (mutex_data s mutex) = None ->
  lksmith_mutex_destroy N others s mutex = Faults s.
Proof.
  intros Hnn Hnone. unfold lksmith_mutex_destroy. rewrite Hnone.
  destruct (Nat.eqb_spec (mutex_data s mutex) NULL); [contradiction|].
  reflexivity.
Qed.

(** No path through the function calls an error callback. *)
Lemma mutex_destroy_silent (N : nat) (others : state -> state) (s : state)
  (mutex : nat) :
  cb_log (final (lksmith_mutex_destroy N others s mutex)) = cb_log s \/
  cb_log (final (lksmith_mutex_destroy N others s mutex)) =
    cb_log (others s).
Proof.
  unfold lksmith_mutex_destroy.
  destruct (if Nat.eqb (mutex_data s mutex) NULL then _ else _);
    [right|left; reflexivity].
  destruct (negb _); [|reflexivity].
  destruct (Nat.eqb _ NULL); rewrite destroy_error_state; reflexivity.
Qed.

(** Destroy of a mutex that was never bound, in the state the process
    starts in: 0 is returned and nothing has been reported.  On the mutex of
    [bound_mutex], with another thread clearing or changing the association
    in between, the call does not return. *)
Lemma mutex_destroy_at_start (N : nat) (mutex : nat) :
  (exists s' : state,
     lksmith_mutex_destroy N (fun s => s) initial_state mutex =
       Returns 0 s' /\
     cb_log s' = [] /\ heap s' = []) /\
  lksmith_mutex_destroy N other_destroys bound_mutex 0 =
    FallsOff (other_destroys bound_mutex) /\
  lksmith_mutex_destroy N other_reinits bound_mutex 0 =
    Faults (other_reinits bound_mutex).
Proof.
  split; [eexists; split; [reflexivity|split; reflexivity]|].
  split; reflexivity.
Qed.

(** C3.  Destroy on a mutex whose association is null, and still null at
    the compare-and-swap, returns 0: the swap of null for null succeeds, so
    no multiple-destroy is detected, reported or returned.  When the
    association of a bound mutex is cleared between the read and the
    compare-and-swap, the call reaches its closing brace; when the
    association is changed to another non-null value, the call stops in the
    [snprintf] of the [error:] label.  On the last two ways no value is
    returned and the state is what the other threads left, the record read
    at first not freed; on no way at all is a callback called. *)
Theorem mutex_destroy_failures :
  forall (N : nat) (others : state -> state) (s : state) (mutex : nat),
    (mutex_data s mutex = NULL ->
     mutex_data (others s) mutex = NULL ->
     exists s' : state,
       lksmith_mutex_destroy N others s mutex = Returns 0 s' /\
       cb_log s' = cb_log (others s) /\
       heap s' = heap (others s)) /\
    (forall d : lksmith_lock_data,
       load (heap s) (mutex_data s mutex) = Some d ->
       mutex_data (others s) mutex = NULL ->
       lksmith_mutex_destroy N others s mutex = FallsOff (others s)) /\
    (mutex_data s mutex = NULL \/
     load (heap s) (mutex_data s mutex) <> None ->
     mutex_data (others s) mutex <> mutex_data s mutex ->
     mutex_data (others s) mutex <> NULL ->
     lksmith_mutex_destroy N others s mutex = Faults (others s)) /\
    (cb_log (final (lksmith_mutex_destroy N others s mutex)) = cb_log s \/
     cb_log (final (lksmith_mutex_destroy N others s mutex)) =
       cb_log (others s)).
Proof.
  intros N others s mutex. split; [|split; [|split]].
  - intros Hnull Hnull'.
    rewrite (mutex_destroy_wins N others s mutex (or_introl Hnull))
      by congruence.
    eexists. split; [reflexivity|]. rewrite Hnull. split; reflexivity.
  - intros d Hd Hnull.
    exact (mutex_destroy_cleared N others s mutex d Hd Hnull).
  - exact (mutex_destroy_rebound N others s mutex).
  - exact (mutex_destroy_silent N others s mutex).
Qed.

(** ** Thread names *)

(** When [get_or_create_tls] returns null, the error is reported and the
    name is then stored through the null pointer. *)
Lemma set_thread_name_null (N : nat) (H : bool) (e : env) (s : state)
  (name : string) :
  fst (get_or_create_tls N H e s) = NULL ->
  lksmith_set_thread_name N H e s name =
    Faults (lksmith_print_error_unlocked (snd (get_or_create_tls N H e s))
              LKSMITH_ERROR_OOM
              ("lksmith_set_thread_name(" ++ name ++
               "): failed to allocate thread-local storage.")).
Proof.
  unfold lksmith_set_thread_name.
  destruct (get_or_create_tls N H e s) as [tls s1]. simpl.
  intros ->. reflexivity.
Qed.

(** C9.  Whenever [get_or_create_tls] returns null,
    [lksmith_set_thread_name] reports out-of-memory through the callback and
    then, having no [return] after the report, goes through the null pointer
    to store the name. *)
Theorem set_thread_name_null_tls :
  forall (N : nat) (H : bool) (e : env) (s : state) (name : string),
    fst (get_or_create_tls N H e s) = NULL ->
    exists s' : state,
      lksmith_set_thread_name N H e s name = Faults s' /\
      cb_log s' =
        cb_log (snd (get_or_create_tls N H e s)) ++
        [mk_cb_call (g_error_cb (snd (get_or_create_tls N H e s)))
           LKSMITH_ERROR_OOM
           (snprintf_str 1024
              ("lksmith_set_thread_name(" ++ name ++
               "): failed to allocate thread-local storage."))] /\
      tls_heap s' = tls_heap (snd (get_or_create_tls N H e s)).
Proof.
  intros N H e s name Hnull.
  rewrite (set_thread_name_null N H e s name Hnull).
  eexists. split; [reflexivity|]. split; reflexivity.
Qed.

Lemma set_thread_name_null_tls_witness :
  fst (get_or_create_tls 16 false env_no_tls initial_state) = NULL /\
  exists s' : state,
    lksmith_set_thread_name 16 false env_no_tls initial_state "worker" =
      Faults s' /\
    cb_log s' =
      cb_log (snd (get_or_create_tls 16 false env_no_tls initial_state)) ++
      [mk_cb_call
         (g_error_cb (snd (get_or_create_tls 16 false env_no_tls
                             initial_state)))
         LKSMITH_ERROR_OOM
         (snprintf_str 1024
            ("lksmith_set_thread_name(" ++ "worker" ++
             "): failed to allocate thread-local storage."))] /\
    tls_heap s' =
      tls_heap (snd (get_or_create_tls 16 false env_no_tls initial_state)).
Proof.
  assert (H1 : fst (get_or_create_tls 16 false env_no_tls initial_state) =
               NULL) by reflexivity.
  exact (conj H1
           (set_thread_name_null_tls 16 false env_no_tls initial_state
              "worker" H1)).
Defined.

(** ** Cells *)

Lemma set_nth_app_last {A : Type} (h : list A) (x y : A) :
  set_nth (h ++ [x]) (List.length h) y = h ++ [y].
Proof. induction h as [|a h IH]; simpl; [reflexivity|]. now rewrite IH. Qed.

Lemma load_app_new {A : Type} (h : list (option A)) (c : option A) :
  load (h ++ [c]) (S (List.length h)) = c.
Proof.
  unfold load. rewrite nth_error_app2 by lia.
  rewrite Nat.sub_diag. reflexivity.
Qed.

(** A cell appended and freed leaves every address as it was. *)
Lemma load_app_none {A : Type} (h : list (option A)) (p : ptr) :
  load (h ++ [None]) p = load h p.
Proof.
  destruct p as [|k]; [reflexivity|]. simpl.
  destruct (Nat.lt_ge_cases k (List.length h)) as [Hlt|Hge].
  - now rewrite nth_error_app1 by exact Hlt.
  - rewrite nth_error_app2 by exact Hge.
    replace (nth_error h k) with (@None (option A))
      by (symmetry; apply nth_error_None; exact Hge).
    destruct (k - List.length h)%nat as [|[|j]]; reflexivity.
Qed.

(** ** Lock data *)

Ltac Zify.zify_post_hook ::= Z.to_euclidean_division_equations.

(** The call ends at its [realloc]: refused, it returns minus the
    out-of-memory code and nothing has changed; otherwise the program stops
    there. *)
Lemma realloc_lock_data_outcome (N : nat) (e : env) (s : state) (data : ptr)
  (new_size : Z) :
  data = NULL \/ load (heap s) data <> None ->
  lksmith_realloc_lock_data N e s data new_size =
    if realloc_data_ok e then Faults s
    else Returns (NEG LKSMITH_ERROR_OOM, data) s.
Proof.
  intros Hdata. unfold lksmith_realloc_lock_data, realloc_variable.
  assert (Hold : exists z,
            (if Nat.eqb data NULL then Some 0
             else option_map (fun d => size_t_wrap (before_size d))
                             (load (heap s) data)) = Some z).
  { destruct Hdata as [->|Hlive]; [eexists; reflexivity|].
    destruct (Nat.eqb data NULL); [eexists; reflexivity|].
    destruct (load (heap s) data); [eexists; reflexivity|contradiction]. }
  destruct Hold as [z Hz]. rewrite Hz.
  destruct (realloc_data_ok e); reflexivity.
Qed.

(** C6.  The call never hands back a grown block: whatever record, size
    and state it is given, it does not return success, and it leaves the
    state as it found it.  For the first allocation of a record (no block
    yet), as for the growth of a live one, it stops in [realloc], which was
    given the address of the caller's variable, unless the request is
    refused; then it returns minus the out-of-memory code, the variable and
    the block unchanged. *)
Theorem realloc_lock_data_never_grows :
  forall (N : nat) (e : env) (s : state) (data : ptr) (new_size : Z),
    (forall (p : ptr) (s' : state),
       lksmith_realloc_lock_data N e s data new_size <> Returns (OK, p) s') /\
    final (lksmith_realloc_lock_data N e s data new_size) = s /\
    (data = NULL \/ load (heap s) data <> None ->
     lksmith_realloc_lock_data N e s data new_size =
       if realloc_data_ok e then Faults s
       else Returns (NEG LKSMITH_ERROR_OOM, data) s).
Proof.
  intros N e s data new_size.
  split; [|split; [|apply realloc_lock_data_outcome]].
  - intros p s'. unfold lksmith_realloc_lock_data, realloc_variable.
    destruct (if Nat.eqb data NULL then _ else _); [|discriminate].
    destruct (realloc_data_ok e); discriminate.
  - unfold lksmith_realloc_lock_data, realloc_variable.
    destruct (if Nat.eqb data NULL then _ else _); [|reflexivity].
    destruct (realloc_data_ok e); reflexivity.
Qed.

(** The call [lksmith_mutex_init] makes, in the state the process starts
    in with memory to be had: the program stops in [realloc]. *)
Lemma realloc_lock_data_at_start (N : nat) :
  lksmith_realloc_lock_data N env_ok initial_state NULL LKSMITH_BEFORE_MIN =
    Faults initial_state.
Proof. reflexivity. Qed.

(** ** Init *)

(** Init gets as far as the allocation of its record, whatever the mutex
    and the registry are: with the request refused it takes the
    out-of-memory exit, otherwise the program stops in [realloc]. *)
Lemma mutex_init_outcome (N : nat) (e : env) (s : state) (name : string)
  (mutex : nat) :
  lksmith_mutex_init N e s name mutex =
    if realloc_data_ok e then Faults s
    else
      Returns ENOMEM
        (call (with_heap s (heap s)) (g_error_cb s) LKSMITH_ERROR_OOM
           (init_msg (uninit_str e)
              "out of memory trying to allocate lksmith_lock_data.")).
Proof.
  unfold lksmith_mutex_init.
  rewrite (realloc_lock_data_outcome N e s NULL LKSMITH_BEFORE_MIN)
    by (left; reflexivity).
  destruct (realloc_data_ok e); reflexivity.
Qed.

(** C2.  Init on a mutex whose association is not null does not get to the
    compare-and-swap.  With memory to be had the program stops in the
    [realloc] of the new record: nothing is reported and nothing returned.
    With the request refused the call reports out-of-memory and returns
    [ENOMEM].  Either way no create-while-in-use is reported, [EINVAL] is not
    returned, and the associations are as before. *)
Theorem mutex_init_on_bound_mutex :
  forall (N : nat) (e : env) (s : state) (name : string) (mutex : nat),
    mutex_data s mutex <> NULL ->
    (realloc_data_ok e = true ->
     lksmith_mutex_init N e s name mutex = Faults s) /\
    (realloc_data_ok e = false ->
     exists (s' : state) (msg : string),
       lksmith_mutex_init N e s name mutex = Returns ENOMEM s' /\
       cb_log s' =
         cb_log s ++ [mk_cb_call (g_error_cb s) LKSMITH_ERROR_OOM msg]) /\
    (forall s' : state,
       lksmith_mutex_init N e s name mutex <> Returns EINVAL s') /\
    (forall c : cb_call,
       In c (cb_log (final (lksmith_mutex_init N e s name mutex))) ->
       call_code c = LKSMITH_ERROR_CREATE_WHILE_IN_USE ->
       In c (cb_log s)) /\
    (forall m : nat,
       mutex_data (final (lksmith_mutex_init N e s name mutex)) m =
         mutex_data s m).
Proof.
  intros N e s name mutex _. rewrite mutex_init_outcome.
  destruct (realloc_data_ok e).
  - split; [reflexivity|]. split; [discriminate|].
    split; [discriminate|]. split; [intros c Hc _; exact Hc|reflexivity].
  - split; [discriminate|]. split.
    { intros _. eexists. eexists. split; reflexivity. }
    split; [unfold ENOMEM, EINVAL; intros s' H; inversion H|].
    split; [|reflexivity].
    intros c Hc Hcode. cbn [final call cb_log with_heap] in Hc.
    apply in_app_or in Hc. destruct Hc as [Hc|[Hc|[]]]; [exact Hc|].
    subst c. discriminate Hcode.
Qed.

Lemma mutex_init_on_bound_mutex_witness :
  mutex_data bound_mutex 0 <> NULL /\
  (realloc_data_ok env_ok = true ->
   lksmith_mutex_init 32 env_ok bound_mutex "b" 0 = Faults bound_mutex) /\
  (realloc_data_ok env_ok = false ->
   exists (s' : state) (msg : string),
     lksmith_mutex_init 32 env_ok bound_mutex "b" 0 = Returns ENOMEM s' /\
     cb_log s' =
       cb_log bound_mutex ++
       [mk_cb_call (g_error_cb bound_mutex) LKSMITH_ERROR_OOM msg]) /\
  (forall s' : state,
     lksmith_mutex_init 32 env_ok bound_mutex "b" 0 <> Returns EINVAL s') /\
  (forall c : cb_call,
     In c (cb_log (final (lksmith_mutex_init 32 env_ok bound_mutex "b" 0))) ->
     call_code c = LKSMITH_ERROR_CREATE_WHILE_IN_USE ->
     In c (cb_log bound_mutex)) /\
  (forall m : nat,
     mutex_data (final (lksmith_mutex_init 32 env_ok bound_mutex "b" 0)) m =
       mutex_data bound_mutex m).
Proof.
  assert (H1 : mutex_data bound_mutex 0 <> NULL) by (vm_compute; lia).
  exact (conj H1
           (mutex_init_on_bound_mutex 32 env_ok bound_mutex "b" 0%nat H1)).
Defined.

(** Init on the bound mutex of [bound_mutex], memory to be had: the program
    stops before anything is reported; with the request refused,
    out-of-memory is what is reported. *)
Lemma mutex_init_bound_mutex_runs :
  lksmith_mutex_init 32 env_ok bound_mutex "b" 0 = Faults bound_mutex /\
  exists s' : state,
    lksmith_mutex_init 32 env_oom bound_mutex "b" 0 = Returns ENOMEM s' /\
    map call_code (cb_log s') = [LKSMITH_ERROR_OOM].
Proof. split; [reflexivity|]. eexists. split; reflexivity. Qed.


(** Two init calls on two mutexes, in the state the process starts in with
    memory to be had: the first one stops the program, and no mutex has a
    lock id. *)
Lemma mutex_init_at_start (N : nat) :
  lksmith_mutex_init N env_ok initial_state "a" 0 = Faults initial_state /\
  lock_id_of initial_state 0 = None /\
  lock_id_of initial_state 1 = None.
Proof. split; [apply mutex_init_outcome|split; reflexivity]. Qed.

(** * Further properties *)

(** ** Version query: the buffer *)

Lemma substring_length_min (s : string) (k : nat) :
  String.length (substring 0 k s) = Nat.min k (String.length s).
Proof.
  destruct (Nat.le_ge_cases k (String.length s)) as [Hle|Hge].
  - rewrite substring_length by exact Hle. lia.
  - rewrite substring_whole by exact Hge. lia.
Qed.

Lemma verion_to_str_mem (api ver : Z) (mem : list ascii) (str_len : nat) :
  fst (lksmith_verion_to_str api ver mem str_len) =
    fst (snprintf mem str_len (major_minor api)).
Proof.
  unfold lksmith_verion_to_str. rewrite verion_text_major_minor.
  destruct (snprintf mem str_len (major_minor api)) as [mem' res].
  destruct (res <? 0); [reflexivity|].
  destruct (res >=? Z.of_nat str_len); reflexivity.
Qed.

Lemma verion_to_str_ret (api ver : Z) (mem : list ascii) (str_len : nat) :
  snd (lksmith_verion_to_str api ver mem str_len) =
    if (String.length (major_minor api) <? str_len)%nat then 0
    else - ENAMETOOLONG.
Proof.
  unfold lksmith_verion_to_str. rewrite verion_text_major_minor.
  assert (Hres : snd (snprintf mem str_len (major_minor api)) =
                 Z.of_nat (String.length (major_minor api)))
    by (unfold snprintf; destruct str_len; reflexivity).
  destruct (snprintf mem str_len (major_minor api)) as [mem' res].
  cbn [snd] in Hres. subst res.
  destruct (Z.ltb_spec (Z.of_nat (String.length (major_minor api))) 0);
    [lia|].
  destruct (Nat.ltb_spec (String.length (major_minor api)) str_len);
    destruct (Z.geb_spec (Z.of_nat (String.length (major_minor api)))
                         (Z.of_nat str_len)); try lia; reflexivity.
Qed.

(** X1.  Whatever the version and the length given, the call stores within
    the first [str_len] cells only: the memory keeps its length and every
    cell from [str_len] on keeps its content. *)
Theorem verion_to_str_within_bounds :
  forall (api ver : Z) (mem : list ascii) (str_len : nat),
    (str_len <= List.length mem)%nat ->
    List.length (fst (lksmith_verion_to_str api ver mem str_len)) =
      List.length mem /\
    skipn str_len (fst (lksmith_verion_to_str api ver mem str_len)) =
      skipn str_len mem.
Proof.
  intros api ver mem str_len Hmem. rewrite verion_to_str_mem.
  unfold snprintf. destruct str_len as [|k]; [split; reflexivity|].
  cbn [fst]. set (w := list_ascii_of_string _ ++ [zero]).
  assert (Hw : List.length w =
               S (Nat.min k (String.length (major_minor api)))).
  { unfold w. rewrite length_app, length_list_ascii_of_string,
      substring_length_min. cbn [List.length]. lia. }
  clearbody w. unfold overwrite. split.
  - rewrite length_app, length_skipn. lia.
  - rewrite skipn_app, skipn_skipn.
    rewrite (skipn_all2 w) by lia. cbn [app].
    f_equal. lia.
Qed.

Lemma verion_to_str_within_bounds_witness :
  (3 <= List.length (repeat "x"%char 5))%nat /\
  List.length
    (fst (lksmith_verion_to_str 65536 0 (repeat "x"%char 5) 3)) =
    List.length (repeat "x"%char 5) /\
  skipn 3 (fst (lksmith_verion_to_str 65536 0 (repeat "x"%char 5) 3)) =
    skipn 3 (repeat "x"%char 5).
Proof.
  assert (H1 : (3 <= List.length (repeat "x"%char 5))%nat)
    by (vm_compute; lia).
  exact (conj H1
           (verion_to_str_within_bounds 65536 0 (repeat "x"%char 5) 3 H1)).
Defined.

(** X2.  The call returns 0 exactly when the text of the compiled-in
    version and its NUL fit in [str_len] cells, and [-ENAMETOOLONG]
    otherwise; it never returns [-EIO]. *)
Theorem verion_to_str_return_value :
  forall (api ver : Z) (mem : list ascii) (str_len : nat),
    (snd (lksmith_verion_to_str api ver mem str_len) = 0 <->
     (String.length (major_minor api) < str_len)%nat) /\
    (snd (lksmith_verion_to_str api ver mem str_len) = - ENAMETOOLONG <->
     (str_len <= String.length (major_minor api))%nat) /\
    snd (lksmith_verion_to_str api ver mem str_len) <> - EIO.
Proof.
  intros api ver mem str_len. rewrite verion_to_str_ret.
  destruct (Nat.ltb_spec (String.length (major_minor api)) str_len);
    unfold ENAMETOOLONG, EIO; repeat split; intros; try lia.
Qed.

(** X3.  With at least one cell, what the buffer holds afterwards is a
    NUL-terminated prefix of the text: its first [m] cells are the first [m]
    characters and cell [m] is NUL, [m] being the length of the text or
    [str_len - 1], whichever is smaller. *)
Theorem verion_to_str_terminated :
  forall (api ver : Z) (mem : list ascii) (k : nat),
    let m := Nat.min k (String.length (major_minor api)) in
    firstn m (fst (lksmith_verion_to_str api ver mem (S k))) =
      list_ascii_of_string (substring 0 k (major_minor api)) /\
    nth_error (fst (lksmith_verion_to_str api ver mem (S k))) m = Some zero.
Proof.
  intros api ver mem k m. rewrite verion_to_str_mem. unfold snprintf.
  cbn [fst]. unfold overwrite.
  assert (Hlen : List.length
                   (list_ascii_of_string (substring 0 k (major_minor api))) =
                 m).
  { rewrite length_list_ascii_of_string. apply substring_length_min. }
  rewrite <- !app_assoc. split.
  - rewrite <- Hlen. rewrite firstn_app, Nat.sub_diag, firstn_all.
    rewrite firstn_O. apply app_nil_r.
  - rewrite nth_error_app2 by lia. rewrite Hlen, Nat.sub_diag. reflexivity.
Qed.

(** ** Version query: how long the text is *)

Lemma string_length_append (s1 s2 : string) :
  String.length (s1 ++ s2) = (String.length s1 + String.length s2)%nat.
Proof. induction s1 as [|c s1 IH]; simpl; [reflexivity|]. now rewrite IH. Qed.

Lemma all_bits_spec (f : Z -> bool) (d : nat) (acc : Z) :
  all_bits d acc f = true ->
  forall z, acc * 2 ^ Z.of_nat d <= z < (acc + 1) * 2 ^ Z.of_nat d ->
            f z = true.
Proof.
  revert acc; induction d as [|d IH]; intros acc Hall z Hz.
  - simpl in *. replace z with acc by lia. exact Hall.
  - cbn [all_bits] in Hall. apply andb_true_iff in Hall.
    destruct Hall as [H0 H1].
    rewrite Nat2Z.inj_succ, Z.pow_succ_r in Hz by lia.
    assert (Hp : 0 < 2 ^ Z.of_nat d) by (apply Z.pow_pos_nonneg; lia).
    destruct (Z.lt_ge_cases z ((2 * acc + 1) * 2 ^ Z.of_nat d)).
    + apply (IH (2 * acc)); [exact H0|]. nia.
    + apply (IH (2 * acc + 1)); [exact H1|]. nia.
Qed.

(** Every 16-bit value prints as one to five digits. *)
Lemma fmt_d_16bit (z : Z) :
  0 <= z < 65536 -> (1 <= String.length (fmt_d z) <= 5)%nat.
Proof.
  intros Hz.
  assert (Hall : all_bits 16 0
                   (fun z =>
                      Nat.leb 1 (String.length (fmt_d z)) &&
                      Nat.leb (String.length (fmt_d z)) 5) = true)
    by (vm_compute; reflexivity).
  pose proof (all_bits_spec _ _ _ Hall z) as Hz'.
  cbv beta in Hz'. rewrite andb_true_iff, !Nat.leb_le in Hz'.
  apply Hz'. change (2 ^ Z.of_nat 16) with 65536. clear -Hz. lia.
Qed.

Lemma land_16bit (z : Z) : 0 <= Z.land z 65535 < 65536.
Proof.
  change 65535 with (Z.ones 16). rewrite Z.land_ones by lia.
  apply Z.mod_pos_bound. reflexivity.
Qed.

Lemma major_minor_length (api : Z) :
  (3 <= String.length (major_minor api) <= 11)%nat.
Proof.
  unfold major_minor. rewrite !string_length_append.
  pose proof (fmt_d_16bit _ (land_16bit (Z.shiftr api 16))).
  pose proof (fmt_d_16bit _ (land_16bit api)).
  change (String.length ".") with 1%nat. lia.
Qed.

(** X4.  Twelve cells are always enough and three never are: with
    [str_len >= 12] the call returns 0 whatever the compiled-in version is,
    and with [str_len <= 3] it returns [-ENAMETOOLONG]. *)
Theorem verion_to_str_buffer_sizes :
  forall (api ver : Z) (mem : list ascii) (str_len : nat),
    ((12 <= str_len)%nat ->
     snd (lksmith_verion_to_str api ver mem str_len) = 0) /\
    ((str_len <= 3)%nat ->
     snd (lksmith_verion_to_str api ver mem str_len) = - ENAMETOOLONG).
Proof.
  intros api ver mem str_len. rewrite verion_to_str_ret.
  pose proof (major_minor_length api) as Hlen.
  destruct (Nat.ltb_spec (String.length (major_minor api)) str_len);
    split; intros; try reflexivity; lia.
Qed.


(** ** Thread-local storage *)

Ltac calloc_chain e :=
  destruct (calloc_tls_ok e) eqn:?; cbn [negb];
  [ destruct (calloc_held_ok e) eqn:?; cbn [negb];
    [ destruct (pthread_setspecific_ret e =? 0) eqn:?; cbn [negb] | ] | ].

Ltac key_chain e s k :=
  destruct (g_tls_key_init s) eqn:?; cbn [negb andb Z.eqb];
  [ k | destruct (pthread_key_create_ret e =? 0) eqn:?; cbn [negb andb];
        [ k | ] ].

(** The paths through [get_or_create_tls], one goal each. *)
Ltac tls_walk H e s :=
  unfold get_or_create_tls, lksmith_print_error_unlocked, alloc;
  cbv zeta; destruct H; cbn [andb negb];
  [ destruct (Nat.eqb_spec (t_improved_tls s) NULL); cbn [negb];
    [ key_chain e s ltac:(calloc_chain e) | ]
  | key_chain e s
      ltac:(cbn [with_tls tls_specific];
            destruct (Nat.eqb_spec (tls_specific s) NULL); cbn [negb];
            [ calloc_chain e | ]) ];
  cbn [fst snd].

(** What a call comes to: a handle found, a failure reported, or a block
    created. *)
Lemma get_or_create_tls_cases (N : nat) (H : bool) (e : env) (s : state) :
  forall (p : ptr) (s' : state),
  get_or_create_tls N H e s = (p, s') ->
  (p <> NULL /\ tls_ready H s' p /\
   tls_heap s' = tls_heap s /\ tls_specific s' = tls_specific s /\
   t_improved_tls s' = t_improved_tls s /\ cb_log s' = cb_log s) \/
  (p = NULL /\
   (tls_heap s' = tls_heap s \/ tls_heap s' = tls_heap s ++ [None]) /\
   tls_specific s' = tls_specific s /\
   t_improved_tls s' = t_improved_tls s /\
   exists msg,
     cb_log s' =
       cb_log s ++ [mk_cb_call (g_error_cb s) LKSMITH_ERROR_OOM msg]) \/
  (p = S (List.length (tls_heap s)) /\ tls_ready H s' p /\
   tls_heap s' =
     tls_heap s ++
     [Some (mk_tls (snprintf_str N (platform_thread_name e))
                   LKSMITH_BEFORE_MIN [0; 0])] /\
   tls_specific s' = p /\
   t_improved_tls s' = (if H then p else t_improved_tls s) /\
   cb_log s' = cb_log s).
Proof.
  unfold tls_ready. tls_walk H e s.
  all: intros p s' Hg; inversion Hg; subst p s'; clear Hg.
  all: cbn [cb_log call tls_heap tls_specific t_improved_tls with_tls
            g_tls_key_init g_error_cb free store].
  all: rewrite ?set_nth_app_last.
  all: first
    [ left; repeat split; solve [reflexivity | assumption | discriminate]
    | right; left; split; [reflexivity|];
      split; [solve [left; reflexivity | right; reflexivity]|];
      repeat split; solve [reflexivity | eexists; reflexivity]
    | right; right; repeat split;
      solve [reflexivity | assumption | discriminate] ].
Qed.

(** The call touches the thread-local part of the state and the callback
    log only. *)
Lemma get_or_create_tls_frame (N : nat) (H : bool) (e : env) (s : state) :
  forall (p : ptr) (s' : state),
  get_or_create_tls N H e s = (p, s') ->
  g_error_cb s' = g_error_cb s /\ heap s' = heap s /\
  g_locks s' = g_locks s /\ g_locks_size s' = g_locks_size s /\
  g_locks_used s' = g_locks_used s /\
  forall m, mutex_data s' m = mutex_data s m.
Proof.
  tls_walk H e s.
  all: intros p s' Hg; inversion Hg; subst p s'; clear Hg.
  all: repeat split.
Qed.

Lemma get_or_create_tls_ready (N : nat) (H : bool) (e : env) (s : state) :
  fst (get_or_create_tls N H e s) <> NULL ->
  tls_ready H (snd (get_or_create_tls N H e s))
            (fst (get_or_create_tls N H e s)).
Proof.
  destruct (get_or_create_tls N H e s) as [p s'] eqn:Hg. cbn [fst snd].
  intros Hp.
  destruct (get_or_create_tls_cases N H e s p s' Hg)
    as [Hc|[Hc|Hc]]; try apply Hc. destruct Hc as [Hc _]. contradiction.
Qed.

Lemma tls_ready_fast (N : nat) (H : bool) (e : env) (s : state) (p : ptr) :
  tls_ready H s p -> get_or_create_tls N H e s = (p, s).
Proof.
  unfold tls_ready, get_or_create_tls. intros [Hp Hs]. destruct H.
  - subst p. destruct (Nat.eqb_spec (t_improved_tls s) NULL);
      [contradiction|reflexivity].
  - destruct Hs as [Hkey Hspec]. subst p. rewrite Hkey. cbn.
    destruct (Nat.eqb_spec (tls_specific s) NULL);
      [contradiction|reflexivity].
Qed.

(** X5.  Once [get_or_create_tls] has handed out a handle, every later
    call by the thread returns the same handle and changes nothing, whatever
    the platform would answer: nothing is allocated and nothing reported. *)
Theorem get_or_create_tls_stable :
  forall (N : nat) (H : bool) (e e' : env) (s : state),
    fst (get_or_create_tls N H e s) <> NULL ->
    get_or_create_tls N H e' (snd (get_or_create_tls N H e s)) =
      get_or_create_tls N H e s.
Proof.
  intros N H e e' s Hp.
  rewrite (tls_ready_fast N H e' _ _ (get_or_create_tls_ready N H e s Hp)).
  destruct (get_or_create_tls N H e s); reflexivity.
Qed.

Lemma get_or_create_tls_stable_witness :
  fst (get_or_create_tls 16 false env_ok initial_state) <> NULL /\
  get_or_create_tls 16 false env_no_tls
    (snd (get_or_create_tls 16 false env_ok initial_state)) =
    get_or_create_tls 16 false env_ok initial_state.
Proof.
  assert (H1 : fst (get_or_create_tls 16 false env_ok initial_state) <> NULL)
    by (vm_compute; lia).
  exact (conj H1
           (get_or_create_tls_stable 16 false env_ok env_no_tls
              initial_state H1)).
Defined.

(** X6.  [get_or_create_tls] calls the error callback exactly when it
    returns null: then once, through the callback in [g_error_cb] and with
    the out-of-memory code; otherwise not at all.  The lock registry, the
    lock records, the mutexes and [g_error_cb] are never touched. *)
Theorem get_or_create_tls_reports_iff_null :
  forall (N : nat) (H : bool) (e : env) (s : state),
    (exists msg : string,
       cb_log (snd (get_or_create_tls N H e s)) =
         cb_log s ++
         (if Nat.eqb (fst (get_or_create_tls N H e s)) NULL
          then [mk_cb_call (g_error_cb s) LKSMITH_ERROR_OOM msg]
          else [])) /\
    g_error_cb (snd (get_or_create_tls N H e s)) = g_error_cb s /\
    heap (snd (get_or_create_tls N H e s)) = heap s /\
    g_locks_used (snd (get_or_create_tls N H e s)) = g_locks_used s /\
    g_locks_size (snd (get_or_create_tls N H e s)) = g_locks_size s /\
    forall m, mutex_data (snd (get_or_create_tls N H e s)) m =
              mutex_data s m.
Proof.
  intros N H e s.
  destruct (get_or_create_tls N H e s) as [p s'] eqn:Hg. cbn [fst snd].
  destruct (get_or_create_tls_frame N H e s p s' Hg)
    as (F1 & F2 & F3 & F4 & F5 & F6).
  split; [|repeat split; assumption].
  destruct (get_or_create_tls_cases N H e s p s' Hg)
    as [Hc|[Hc|Hc]].
  - destruct Hc as (Hp & _ & _ & _ & _ & Hlog). exists ""%string.
    destruct (Nat.eqb_spec p NULL); [contradiction|].
    rewrite app_nil_r. exact Hlog.
  - destruct Hc as (Hp & _ & _ & _ & msg & Hlog). exists msg.
    subst p. exact Hlog.
  - destruct Hc as (Hp & _ & _ & _ & _ & Hlog). exists ""%string.
    subst p. rewrite app_nil_r. exact Hlog.
Qed.

(** X7.  A call that returns null leaves nothing behind: the values the
    thread has stored are as before, and so is every block of thread-local
    storage (what was allocated on the way has been freed). *)
Theorem get_or_create_tls_failure_keeps_nothing :
  forall (N : nat) (H : bool) (e : env) (s : state),
    fst (get_or_create_tls N H e s) = NULL ->
    tls_specific (snd (get_or_create_tls N H e s)) = tls_specific s /\
    t_improved_tls (snd (get_or_create_tls N H e s)) = t_improved_tls s /\
    forall q : ptr,
      load (tls_heap (snd (get_or_create_tls N H e s))) q =
        load (tls_heap s) q.
Proof.
  intros N H e s.
  destruct (get_or_create_tls N H e s) as [p s'] eqn:Hg. cbn [fst snd].
  intros Hp.
  destruct (get_or_create_tls_cases N H e s p s' Hg)
    as [Hc|[Hc|Hc]].
  - destruct Hc as [Hc _]. contradiction.
  - destruct Hc as (_ & Hheap & Hs & Hi & _). repeat split; try assumption.
    intros q. destruct Hheap as [->| ->]; [reflexivity|].
    apply load_app_none.
  - destruct Hc as [Hc _]. rewrite Hp in Hc. discriminate Hc.
Qed.

Lemma get_or_create_tls_failure_keeps_nothing_witness :
  fst (get_or_create_tls 16 true
         (mk_env true true true 170 "?" 0 true false 0 "thread"
                 (fun _ => "error"%string))
         initial_state) = NULL /\
  tls_specific
    (snd (get_or_create_tls 16 true
            (mk_env true true true 170 "?" 0 true false 0 "thread"
                    (fun _ => "error"%string))
            initial_state)) = tls_specific initial_state /\
  t_improved_tls
    (snd (get_or_create_tls 16 true
            (mk_env true true true 170 "?" 0 true false 0 "thread"
                    (fun _ => "error"%string))
            initial_state)) = t_improved_tls initial_state /\
  forall q : ptr,
    load (tls_heap
            (snd (get_or_create_tls 16 true
                    (mk_env true true true 170 "?" 0 true false 0 "thread"
                            (fun _ => "error"%string))
                    initial_state))) q =
      load (tls_heap initial_state) q.
Proof.
  assert (H1 : fst (get_or_create_tls 16 true
                      (mk_env true true true 170 "?" 0 true false 0 "thread"
                              (fun _ => "error"%string))
                      initial_state) = NULL) by reflexivity.
  exact (conj H1
           (get_or_create_tls_failure_keeps_nothing 16 true _ initial_state
              H1)).
Defined.

(** ** A thread's first call *)

Lemma load_app_old {A : Type} (h l : list (option A)) (q : ptr) :
  (q <= List.length h)%nat -> load (h ++ l) q = load h q.
Proof.
  destruct q as [|k]; [reflexivity|]. intros Hq. simpl.
  now rewrite nth_error_app1 by lia.
Qed.

Lemma set_nth_length {A : Type} (l : list A) (k : nat) (x : A) :
  List.length (set_nth l k x) = List.length l.
Proof.
  revert k; induction l as [|a l IH]; intros [|k]; simpl; auto.
Qed.

Lemma nth_error_set_nth_same {A : Type} (l : list A) (k : nat) (x : A) :
  (k < List.length l)%nat -> nth_error (set_nth l k x) k = Some x.
Proof.
  revert k; induction l as [|a l IH]; intros [|k] Hk; simpl in *;
    try lia; [reflexivity|]. apply IH. lia.
Qed.

Lemma nth_error_set_nth_other {A : Type} (l : list A) (k j : nat) (x : A) :
  j <> k -> nth_error (set_nth l k x) j = nth_error l j.
Proof.
  revert k j; induction l as [|a l IH]; intros [|k] [|j] Hj; simpl;
    try reflexivity; try contradiction. apply IH. congruence.
Qed.

(** A store through a valid pointer reads back, and leaves the other cells
    alone. *)
Lemma load_store_same {A : Type} (h : list (option A)) (p : ptr) (x y : A) :
  load h p = Some x -> load (store h p y) p = Some y.
Proof.
  destruct p as [|k]; [discriminate|]. simpl. intros Hx.
  rewrite nth_error_set_nth_same; [reflexivity|].
  apply nth_error_Some. destruct (nth_error h k); discriminate.
Qed.

Lemma load_store_other {A : Type} (h : list (option A)) (p q : ptr) (y : A) :
  q <> p -> load (store h p y) q = load h q.
Proof.
  destruct p as [|k]; [reflexivity|]. destruct q as [|j]; [reflexivity|].
  intros Hq. simpl. rewrite nth_error_set_nth_other by congruence.
  reflexivity.
Qed.

Lemma load_free_same {A : Type} (h : list (option A)) (p : ptr) :
  load (free h p) p = None.
Proof.
  destruct p as [|k]; [reflexivity|]. simpl.
  destruct (Nat.lt_ge_cases k (List.length h)) as [Hlt|Hge].
  - now rewrite nth_error_set_nth_same by exact Hlt.
  - replace (nth_error (set_nth h k None) k) with (@None (option A));
      [reflexivity|].
    symmetry. apply nth_error_None. rewrite set_nth_length. exact Hge.
Qed.

Lemma load_free_other {A : Type} (h : list (option A)) (p q : ptr) :
  q <> p -> load (free h p) q = load h q.
Proof.
  destruct p as [|k]; [reflexivity|]. destruct q as [|j]; [reflexivity|].
  intros Hq. simpl. rewrite nth_error_set_nth_other by congruence.
  reflexivity.
Qed.

(** No bit is set in two zero bytes. *)
Lemma BITFIELD_TEST_zeros (h : Z) :
  match BITFIELD_TEST [0; 0] h with Some b => b | None => false end = false.
Proof.
  unfold BITFIELD_TEST. destruct (h <? 0); [reflexivity|].
  destruct (Z.to_nat (h / 8)) as [|[|k]]; simpl;
    try apply Z.testbit_0_l. destruct k; reflexivity.
Qed.

(** A call that finds no handle stored, when the platform goes along: the
    state afterwards.  With [HAVE_IMPROVED_TLS] the handle is looked for in
    the [__thread] variable only, without it under the key only. *)
Lemma get_or_create_tls_fresh (N : nat) (H : bool) (e : env) (s : state) :
  (if H then t_improved_tls s = NULL else tls_specific s = NULL) ->
  g_tls_key_init s = true \/ pthread_key_create_ret e = 0 ->
  calloc_tls_ok e = true ->
  calloc_held_ok e = true ->
  pthread_setspecific_ret e = 0 ->
  get_or_create_tls N H e s =
    (S (List.length (tls_heap s)),
     with_tls s true
       (tls_heap s ++
        [Some (mk_tls (snprintf_str N (platform_thread_name e))
                      LKSMITH_BEFORE_MIN [0; 0])])
       (S (List.length (tls_heap s)))
       (if H then S (List.length (tls_heap s)) else t_improved_tls s)).
Proof.
  intros Hno Hkey Hc1 Hc2 Hset.
  unfold get_or_create_tls, alloc. cbv zeta.
  assert (Hfast : H && negb (Nat.eqb (t_improved_tls s) NULL) = false)
    by (destruct H; [rewrite Hno|]; reflexivity).
  assert (Hret : (if g_tls_key_init s then 0 else pthread_key_create_ret e)
                 = 0)
    by (destruct Hkey as [->|Hk]; [|destruct (g_tls_key_init s)];
        congruence).
  rewrite Hfast, Hret, Hc1, Hc2, Hset. cbn [Z.eqb negb andb].
  assert (Hkey' : g_tls_key_init
                    (if negb (g_tls_key_init s) && true
                     then with_tls s true (tls_heap s) (tls_specific s)
                            (t_improved_tls s)
                     else s) = true)
    by (destruct (g_tls_key_init s) eqn:Hk; [exact Hk|reflexivity]).
  destruct (negb (g_tls_key_init s) && true);
    cbn [with_tls tls_heap tls_specific t_improved_tls g_tls_key_init
         g_error_cb g_locks g_locks_size g_locks_used heap mutex_data cb_log]
      in *.
  - assert (Hslow : negb H && negb (Nat.eqb (tls_specific s) NULL) = false)
      by (destruct H; [|rewrite Hno]; reflexivity).
    rewrite Hslow. cbn [store]. rewrite set_nth_app_last. reflexivity.
  - assert (Hslow : negb H && negb (Nat.eqb (tls_specific s) NULL) = false)
      by (destruct H; [|rewrite Hno]; reflexivity).
    rewrite Hslow, Hkey'. cbn [store]. rewrite set_nth_app_last.
    reflexivity.
Qed.

(** X8.  A call that finds no handle stored (the [__thread] variable is
    null with [HAVE_IMPROVED_TLS], the value under the key is null without
    it), when the key can be had and the two allocations and
    [pthread_setspecific] succeed: the handle is a new block that carries
    the platform's name cut to the name buffer and a held set of
    [LKSMITH_BEFORE_MIN] bits in which no lock is held; the blocks that
    existed are as before and nothing is reported. *)
Theorem get_or_create_tls_first_call :
  forall (N : nat) (H : bool) (e : env) (s : state),
    (if H then t_improved_tls s = NULL else tls_specific s = NULL) ->
    g_tls_key_init s = true \/ pthread_key_create_ret e = 0 ->
    calloc_tls_ok e = true ->
    calloc_held_ok e = true ->
    pthread_setspecific_ret e = 0 ->
    fst (get_or_create_tls N H e s) = S (List.length (tls_heap s)) /\
    load (tls_heap (snd (get_or_create_tls N H e s)))
         (fst (get_or_create_tls N H e s)) =
      Some (mk_tls (snprintf_str N (platform_thread_name e))
                   LKSMITH_BEFORE_MIN [0; 0]) /\
    (forall h : Z, held_by_caller (snd (get_or_create_tls N H e s)) h =
                   false) /\
    (forall q : ptr,
       (q <= List.length (tls_heap s))%nat ->
       load (tls_heap (snd (get_or_create_tls N H e s))) q =
         load (tls_heap s) q) /\
    cb_log (snd (get_or_create_tls N H e s)) = cb_log s.
Proof.
  intros N H e s Hno Hkey Hc1 Hc2 Hset.
  rewrite (get_or_create_tls_fresh N H e s Hno Hkey Hc1 Hc2 Hset).
  cbn [fst snd with_tls tls_heap cb_log]. split; [reflexivity|].
  split; [apply load_app_new|]. split; [|split; [|reflexivity]].
  - intros h. unfold held_by_caller. cbn [with_tls tls_heap tls_specific].
    rewrite load_app_new. cbn [held]. apply BITFIELD_TEST_zeros.
  - intros q Hq. apply load_app_old. exact Hq.
Qed.

Lemma get_or_create_tls_first_call_witness :
  ((if false then t_improved_tls initial_state = NULL
    else tls_specific initial_state = NULL) /\
   (g_tls_key_init initial_state = true \/
    pthread_key_create_ret env_ok = 0) /\
   calloc_tls_ok env_ok = true /\
   calloc_held_ok env_ok = true /\
   pthread_setspecific_ret env_ok = 0) /\
  fst (get_or_create_tls 16 false env_ok initial_state) =
    S (List.length (tls_heap initial_state)) /\
  load (tls_heap (snd (get_or_create_tls 16 false env_ok initial_state)))
       (fst (get_or_create_tls 16 false env_ok initial_state)) =
    Some (mk_tls (snprintf_str 16 (platform_thread_name env_ok))
                 LKSMITH_BEFORE_MIN [0; 0]) /\
  (forall h : Z,
     held_by_caller (snd (get_or_create_tls 16 false env_ok initial_state))
                    h = false) /\
  (forall q : ptr,
     (q <= List.length (tls_heap initial_state))%nat ->
     load (tls_heap (snd (get_or_create_tls 16 false env_ok initial_state)))
          q =
       load (tls_heap initial_state) q) /\
  cb_log (snd (get_or_create_tls 16 false env_ok initial_state)) =
    cb_log initial_state.
Proof.
  assert (H1 : if false then t_improved_tls initial_state = NULL
               else tls_specific initial_state = NULL) by reflexivity.
  assert (H3 : g_tls_key_init initial_state = true \/
               pthread_key_create_ret env_ok = 0) by (right; reflexivity).
  assert (H4 : calloc_tls_ok env_ok = true) by reflexivity.
  assert (H5 : calloc_held_ok env_ok = true) by reflexivity.
  assert (H6 : pthread_setspecific_ret env_ok = 0) by reflexivity.
  exact (conj (conj H1 (conj H3 (conj H4 (conj H5 H6))))
              (get_or_create_tls_first_call 16 false env_ok initial_state
                 H1 H3 H4 H5 H6)).
Defined.

(** ** Naming a thread *)

(** A call that returns: the handle it used and the state it leaves. *)
Lemma set_thread_name_returns (N : nat) (H : bool) (e : env) (s s1 : state)
  (name : string) :
  lksmith_set_thread_name N H e s name = Returns tt s1 ->
  exists (p : ptr) (t : lksmith_tls),
    get_or_create_tls N H e s = (p, snd (get_or_create_tls N H e s)) /\
    p <> NULL /\
    load (tls_heap (snd (get_or_create_tls N H e s))) p = Some t /\
    s1 = with_tls (snd (get_or_create_tls N H e s))
           (g_tls_key_init (snd (get_or_create_tls N H e s)))
           (store (tls_heap (snd (get_or_create_tls N H e s))) p
                  (mk_tls (snprintf_str N name) (held_size t) (held t)))
           (tls_specific (snd (get_or_create_tls N H e s)))
           (t_improved_tls (snd (get_or_create_tls N H e s))).
Proof.
  unfold lksmith_set_thread_name.
  destruct (get_or_create_tls N H e s) as [p sg]. cbn [snd].
  destruct (Nat.eqb_spec p NULL) as [->|Hp]; [discriminate|].
  destruct (load (tls_heap sg) p) as [t|] eqn:Ht; [|discriminate].
  intros Hret. inversion Hret. exists p, t. repeat split; assumption.
Qed.

(** X9.  Naming a thread when no handle is found stored (the [__thread]
    variable is null with [HAVE_IMPROVED_TLS], the value under the key is
    null without it) and the platform goes along: the storage is created and
    carries the given name, cut to the name buffer, in place of the
    platform's; no lock is held and nothing is reported. *)
Theorem set_thread_name_first_call :
  forall (N : nat) (H : bool) (e : env) (s : state) (name : string),
    (if H then t_improved_tls s = NULL else tls_specific s = NULL) ->
    g_tls_key_init s = true \/ pthread_key_create_ret e = 0 ->
    calloc_tls_ok e = true ->
    calloc_held_ok e = true ->
    pthread_setspecific_ret e = 0 ->
    exists s' : state,
      lksmith_set_thread_name N H e s name = Returns tt s' /\
      tls_specific s' = S (List.length (tls_heap s)) /\
      load (tls_heap s') (tls_specific s') =
        Some (mk_tls (snprintf_str N name) LKSMITH_BEFORE_MIN [0; 0]) /\
      (String.length (snprintf_str N name) <= Nat.pred N)%nat /\
      (forall h : Z, held_by_caller s' h = false) /\
      cb_log s' = cb_log s.
Proof.
  intros N H e s name Hno Hkey Hc1 Hc2 Hset.
  unfold lksmith_set_thread_name.
  rewrite (get_or_create_tls_fresh N H e s Hno Hkey Hc1 Hc2 Hset).
  cbn [Nat.eqb NULL with_tls tls_heap]. rewrite load_app_new.
  eexists. split; [reflexivity|].
  cbn [with_tls tls_heap tls_specific cb_log held_size held store].
  rewrite set_nth_app_last, load_app_new.
  split; [reflexivity|]. split; [reflexivity|].
  split; [unfold snprintf_str; rewrite substring_length_min; lia|].
  split; [|reflexivity].
  intros h. unfold held_by_caller. cbn [with_tls tls_heap tls_specific].
  rewrite load_app_new. cbn [held]. apply BITFIELD_TEST_zeros.
Qed.

Lemma set_thread_name_first_call_witness :
  ((if true then t_improved_tls initial_state = NULL
    else tls_specific initial_state = NULL) /\
   (g_tls_key_init initial_state = true \/
    pthread_key_create_ret env_ok = 0) /\
   calloc_tls_ok env_ok = true /\
   calloc_held_ok env_ok = true /\
   pthread_setspecific_ret env_ok = 0) /\
  exists s' : state,
    lksmith_set_thread_name 8 true env_ok initial_state "a long name" =
      Returns tt s' /\
    tls_specific s' = S (List.length (tls_heap initial_state)) /\
    load (tls_heap s') (tls_specific s') =
      Some (mk_tls (snprintf_str 8 "a long name") LKSMITH_BEFORE_MIN
                   [0; 0]) /\
    (String.length (snprintf_str 8 "a long name") <= Nat.pred 8)%nat /\
    (forall h : Z, held_by_caller s' h = false) /\
    cb_log s' = cb_log initial_state.
Proof.
  assert (H1 : if true then t_improved_tls initial_state = NULL
               else tls_specific initial_state = NULL) by reflexivity.
  assert (H3 : g_tls_key_init initial_state = true \/
               pthread_key_create_ret env_ok = 0) by (right; reflexivity).
  assert (H4 : calloc_tls_ok env_ok = true) by reflexivity.
  assert (H5 : calloc_held_ok env_ok = true) by reflexivity.
  assert (H6 : pthread_setspecific_ret env_ok = 0) by reflexivity.
  exact (conj (conj H1 (conj H3 (conj H4 (conj H5 H6))))
              (set_thread_name_first_call 8 true env_ok initial_state
                 "a long name" H1 H3 H4 H5 H6)).
Defined.

(** X10.  After a call of [lksmith_set_thread_name] that returned, a
    further call by the thread returns too, whatever the platform would
    answer; it allocates nothing and reports nothing, and in the thread's
    block it replaces the name, cut to the name buffer, and keeps the held
    set; the other blocks are as before. *)
Theorem set_thread_name_again :
  forall (N : nat) (H : bool) (e1 e2 : env) (s s1 : state)
         (name1 name2 : string),
    lksmith_set_thread_name N H e1 s name1 = Returns tt s1 ->
    exists (s2 : state) (p : ptr) (t : lksmith_tls),
      lksmith_set_thread_name N H e2 s1 name2 = Returns tt s2 /\
      load (tls_heap s1) p = Some t /\
      tls_name t = snprintf_str N name1 /\
      load (tls_heap s2) p =
        Some (mk_tls (snprintf_str N name2) (held_size t) (held t)) /\
      (forall q : ptr, q <> p ->
                       load (tls_heap s2) q = load (tls_heap s1) q) /\
      List.length (tls_heap s2) = List.length (tls_heap s1) /\
      cb_log s2 = cb_log s1.
Proof.
  intros N H e1 e2 s s1 name1 name2 Hret.
  destruct (set_thread_name_returns N H e1 s s1 name1 Hret)
    as (p & t & Hg & Hp & Ht & Hs1).
  assert (Hready : tls_ready H s1 p).
  { pose proof (get_or_create_tls_ready N H e1 s) as Hr.
    rewrite Hg in Hr. cbn [fst snd] in Hr. specialize (Hr Hp).
    rewrite Hs1. unfold tls_ready in *. destruct H; exact Hr. }
  set (t1 := mk_tls (snprintf_str N name1) (held_size t) (held t)) in *.
  assert (Ht1 : load (tls_heap s1) p = Some t1).
  { rewrite Hs1. cbn [with_tls tls_heap].
    apply (load_store_same _ _ t). exact Ht. }
  unfold lksmith_set_thread_name.
  rewrite (tls_ready_fast N H e2 s1 p Hready).
  destruct (Nat.eqb_spec p NULL) as [Heq|_]; [contradiction|].
  rewrite Ht1. eexists. exists p, t1. split; [reflexivity|].
  cbn [with_tls tls_heap cb_log tls_name held_size held].
  split; [exact Ht1|]. split; [reflexivity|].
  split; [apply (load_store_same _ _ t1); exact Ht1|].
  split; [intros q Hq; apply load_store_other; exact Hq|].
  split; [|reflexivity].
  destruct p as [|k]; [contradiction|]. apply set_nth_length.
Qed.

Lemma set_thread_name_again_witness :
  lksmith_set_thread_name 16 false env_ok initial_state "main" =
    Returns tt
      (with_tls initial_state true
         [Some (mk_tls "main" LKSMITH_BEFORE_MIN [0; 0])] 1%nat NULL) /\
  exists (s2 : state) (p : ptr) (t : lksmith_tls),
    lksmith_set_thread_name 16 false env_no_tls
      (with_tls initial_state true
         [Some (mk_tls "main" LKSMITH_BEFORE_MIN [0; 0])] 1%nat NULL)
      "worker" = Returns tt s2 /\
    load (tls_heap
            (with_tls initial_state true
               [Some (mk_tls "main" LKSMITH_BEFORE_MIN [0; 0])] 1%nat NULL))
         p = Some t /\
    tls_name t = snprintf_str 16 "main" /\
    load (tls_heap s2) p =
      Some (mk_tls (snprintf_str 16 "worker") (held_size t) (held t)) /\
    (forall q : ptr,
       q <> p ->
       load (tls_heap s2) q =
         load (tls_heap
                 (with_tls initial_state true
                    [Some (mk_tls "main" LKSMITH_BEFORE_MIN [0; 0])]
                    1%nat NULL)) q) /\
    List.length (tls_heap s2) =
      List.length
        (tls_heap
           (with_tls initial_state true
              [Some (mk_tls "main" LKSMITH_BEFORE_MIN [0; 0])] 1%nat NULL)) /\
    cb_log s2 =
      cb_log
        (with_tls initial_state true
           [Some (mk_tls "main" LKSMITH_BEFORE_MIN [0; 0])] 1%nat NULL).
Proof.
  assert (H1 : lksmith_set_thread_name 16 false env_ok initial_state "main" =
               Returns tt
                 (with_tls initial_state true
                    [Some (mk_tls "main" LKSMITH_BEFORE_MIN [0; 0])]
                    1%nat NULL)) by reflexivity.
  exact (conj H1
           (set_thread_name_again 16 false env_ok env_no_tls initial_state _
              "main" "worker" H1)).
Defined.

(** ** Lock ids within the capacity *)

Lemma testbit_1 (z : Z) : z <> 0 -> Z.testbit 1 z = false.
Proof. destruct z as [|q|q]; [contradiction| |]; reflexivity. Qed.

(** Setting a bit changes no other bit. *)
Lemma BITFIELD_SET_other (bf bf' : list Z) (i k : Z) :
  BITFIELD_SET bf i = Some bf' -> k <> i ->
  BITFIELD_TEST bf' k = BITFIELD_TEST bf k.
Proof.
  unfold BITFIELD_SET, BITFIELD_TEST.
  destruct (Z.ltb_spec i 0) as [Hi|Hi]; [discriminate|].
  destruct (Z.ltb_spec k 0) as [Hk|Hk]; [reflexivity|].
  intros Hs Hne.
  destruct (Nat.eq_dec (Z.to_nat (k / 8)) (Z.to_nat (i / 8))) as [Heq|Hn].
  - rewrite Heq.
    destruct (store_byte_nth _ _ _ _ Hs) as (b & Hb & Hb' & _).
    rewrite Hb, Hb'. cbn [option_map]. f_equal.
    assert (Hmod : k mod 8 <> i mod 8) by lia.
    assert (0 <= k mod 8 < 8) by (apply Z.mod_pos_bound; lia).
    rewrite Z.lor_spec, Z.shiftl_spec by lia.
    rewrite testbit_1 by lia. apply orb_false_r.
  - rewrite (store_byte_nth_other _ _ _ _ _ Hs Hn). reflexivity.
Qed.

(** A call that returns, on a registry of non-negative size: it returns an
    id, and has stored that id's bit and nothing else. *)
Lemma alloc_next_lock_id_returns (e : env) (s s' : state) (v : id_or_error) :
  0 <= g_locks_size s ->
  lksmith_alloc_next_lock_id e s = Returns v s' ->
  exists i : Z,
    v = Id i /\
    BITFIELD_SET (g_locks_used s) i = Some (g_locks_used s') /\
    s' = with_registry s (g_locks s) (g_locks_size s) (g_locks_used s').
Proof.
  intros Hsize. unfold lksmith_alloc_next_lock_id.
  destruct (scan_used _ _ _ _) as [i|] eqn:Hscan; [|discriminate].
  apply scan_used_range in Hscan.
  destruct (Z.gtb_spec i (g_locks_size s)) as [Hgt|_]; [lia|].
  destruct (BITFIELD_SET (g_locks_used s) i) as [u|] eqn:Hset;
    [|discriminate].
  intros Hret. inversion Hret. exists i. repeat split. exact Hset.
Qed.

(** X11.  An id handed out below the capacity is the lowest index whose
    used bit was clear; the call sets that bit and no other, and leaves the
    table, its size, the lock records, the mutexes and the callback log as
    they were. *)
Theorem alloc_next_lock_id_within_capacity :
  forall (e : env) (s s' : state) (i : Z),
    0 <= g_locks_size s ->
    lksmith_alloc_next_lock_id e s = Returns (Id i) s' ->
    i < g_locks_size s ->
    BITFIELD_TEST (g_locks_used s) i = Some false /\
    (forall k, 0 <= k < i -> BITFIELD_TEST (g_locks_used s) k = Some true) /\
    BITFIELD_TEST (g_locks_used s') i = Some true /\
    (forall k, k <> i ->
               BITFIELD_TEST (g_locks_used s') k =
                 BITFIELD_TEST (g_locks_used s) k) /\
    g_locks_size s' = g_locks_size s /\ g_locks s' = g_locks s /\
    heap s' = heap s /\ cb_log s' = cb_log s /\
    forall m, mutex_data s' m = mutex_data s m.
Proof.
  intros e s s' i Hsize Hret Hi.
  destruct (alloc_next_lock_id_lowest e s s' i Hsize Hret)
    as (_ & Hlow & Hclear & Hbit).
  destruct (alloc_next_lock_id_returns e s s' _ Hsize Hret)
    as (j & Hj & Hset & Hs').
  inversion Hj; subst j.
  split; [exact (Hclear Hi)|]. split; [exact Hlow|]. split; [exact Hbit|].
  split; [intros k Hk; exact (BITFIELD_SET_other _ _ _ _ Hset Hk)|].
  rewrite Hs'. repeat split.
Qed.

Lemma alloc_next_lock_id_within_capacity_witness :
  (0 <= g_locks_size three_slots /\
   lksmith_alloc_next_lock_id env_ok three_slots =
     Returns (Id 1) (with_registry three_slots [1%nat; NULL; NULL] 3 [3]) /\
   1 < g_locks_size three_slots) /\
  BITFIELD_TEST (g_locks_used three_slots) 1 = Some false /\
  (forall k, 0 <= k < 1 ->
             BITFIELD_TEST (g_locks_used three_slots) k = Some true) /\
  BITFIELD_TEST
    (g_locks_used (with_registry three_slots [1%nat; NULL; NULL] 3 [3])) 1 =
    Some true /\
  (forall k, k <> 1 ->
             BITFIELD_TEST
               (g_locks_used
                  (with_registry three_slots [1%nat; NULL; NULL] 3 [3])) k =
               BITFIELD_TEST (g_locks_used three_slots) k) /\
  g_locks_size (with_registry three_slots [1%nat; NULL; NULL] 3 [3]) =
    g_locks_size three_slots /\
  g_locks (with_registry three_slots [1%nat; NULL; NULL] 3 [3]) =
    g_locks three_slots /\
  heap (with_registry three_slots [1%nat; NULL; NULL] 3 [3]) =
    heap three_slots /\
  cb_log (with_registry three_slots [1%nat; NULL; NULL] 3 [3]) =
    cb_log three_slots /\
  forall m,
    mutex_data (with_registry three_slots [1%nat; NULL; NULL] 3 [3]) m =
      mutex_data three_slots m.
Proof.
  assert (H1 : 0 <= g_locks_size three_slots) by (simpl; lia).
  assert (H2 : lksmith_alloc_next_lock_id env_ok three_slots =
               Returns (Id 1)
                 (with_registry three_slots [1%nat; NULL; NULL] 3 [3]))
    by reflexivity.
  assert (H3 : 1 < g_locks_size three_slots) by reflexivity.
  exact (conj (conj H1 (conj H2 H3))
              (alloc_next_lock_id_within_capacity env_ok three_slots _ 1
                 H1 H2 H3)).
Defined.

(** X12.  On a registry of non-negative size the call never returns an
    out-of-memory code, and what it does is the same whether the platform
    would let its [realloc]s succeed or not: neither [realloc] is reached. *)
Theorem alloc_next_lock_id_never_out_of_memory :
  forall (e e' : env) (s : state),
    0 <= g_locks_size s ->
    (forall (err : lksmith_error) (s' : state),
       lksmith_alloc_next_lock_id e s <> Returns (Neg err) s') /\
    lksmith_alloc_next_lock_id e' s = lksmith_alloc_next_lock_id e s.
Proof.
  intros e e' s Hsize. split.
  - intros err s' Hret.
    destruct (alloc_next_lock_id_returns e s s' _ Hsize Hret)
      as (i & Hi & _). discriminate Hi.
  - unfold lksmith_alloc_next_lock_id.
    destruct (scan_used _ _ _ _) as [i|] eqn:Hscan; [|reflexivity].
    apply scan_used_range in Hscan.
    destruct (Z.gtb_spec i (g_locks_size s)) as [Hgt|_]; [lia|reflexivity].
Qed.

Lemma alloc_next_lock_id_never_out_of_memory_witness :
  0 <= g_locks_size three_slots /\
  (forall (err : lksmith_error) (s' : state),
     lksmith_alloc_next_lock_id env_ok three_slots <>
       Returns (Neg err) s') /\
  lksmith_alloc_next_lock_id
    (mk_env true false false 170 "?" 0 true true 0 "thread"
            (fun _ => "error"%string))
    three_slots =
    lksmith_alloc_next_lock_id env_ok three_slots.
Proof.
  assert (H1 : 0 <= g_locks_size three_slots) by (simpl; lia).
  exact (conj H1
           (alloc_next_lock_id_never_out_of_memory env_ok _ three_slots
              H1)).
Defined.

(** X13.  Ids handed out below the capacity go up: after a call has
    returned an id below the capacity, the next call that returns gives a
    greater id, at most the capacity. *)
Theorem alloc_next_lock_id_increasing :
  forall (e1 e2 : env) (s s1 s2 : state) (i1 i2 : Z),
    0 <= g_locks_size s ->
    lksmith_alloc_next_lock_id e1 s = Returns (Id i1) s1 ->
    i1 < g_locks_size s ->
    lksmith_alloc_next_lock_id e2 s1 = Returns (Id i2) s2 ->
    i1 < i2 <= g_locks_size s.
Proof.
  intros e1 e2 s s1 s2 i1 i2 Hsize Hr1 Hi1 Hr2.
  destruct (alloc_next_lock_id_lowest e1 s s1 i1 Hsize Hr1)
    as (Hr & Hlow1 & _ & Hbit1).
  destruct (alloc_next_lock_id_returns e1 s s1 _ Hsize Hr1)
    as (j & Hj & Hset1 & Hs1).
  inversion Hj; subst j.
  assert (Hsize1 : g_locks_size s1 = g_locks_size s)
    by (rewrite Hs1; reflexivity).
  assert (Hsize1' : 0 <= g_locks_size s1) by lia.
  destruct (alloc_next_lock_id_lowest e2 s1 s2 i2 Hsize1' Hr2)
    as (Hr' & _ & Hclear2 & _).
  rewrite Hsize1 in *. split; [|lia].
  destruct (Z.lt_ge_cases i1 i2) as [Hlt|Hge]; [exact Hlt|exfalso].
  assert (Hclear : BITFIELD_TEST (g_locks_used s1) i2 = Some false)
    by (apply Hclear2; lia).
  destruct (Z.eq_dec i2 i1) as [->|Hne]; [congruence|].
  assert (Hset : BITFIELD_TEST (g_locks_used s) i2 = Some true)
    by (apply Hlow1; lia).
  rewrite (BITFIELD_SET_other _ _ _ _ Hset1 Hne) in Hclear. congruence.
Qed.

Lemma alloc_next_lock_id_increasing_witness :
  (0 <= g_locks_size three_slots /\
   lksmith_alloc_next_lock_id env_ok three_slots =
     Returns (Id 1) (with_registry three_slots [1%nat; NULL; NULL] 3 [3]) /\
   1 < g_locks_size three_slots /\
   lksmith_alloc_next_lock_id env_ok
     (with_registry three_slots [1%nat; NULL; NULL] 3 [3]) =
     Returns (Id 2) (with_registry three_slots [1%nat; NULL; NULL] 3 [7])) /\
  1 < 2 <= g_locks_size three_slots.
Proof.
  assert (H1 : 0 <= g_locks_size three_slots) by (simpl; lia).
  assert (H2 : lksmith_alloc_next_lock_id env_ok three_slots =
               Returns (Id 1)
                 (with_registry three_slots [1%nat; NULL; NULL] 3 [3]))
    by reflexivity.
  assert (H3 : 1 < g_locks_size three_slots) by reflexivity.
  assert (H4 : lksmith_alloc_next_lock_id env_ok
                 (with_registry three_slots [1%nat; NULL; NULL] 3 [3]) =
               Returns (Id 2)
                 (with_registry three_slots [1%nat; NULL; NULL] 3 [7]))
    by reflexivity.
  exact (conj (conj H1 (conj H2 (conj H3 H4)))
              (alloc_next_lock_id_increasing env_ok env_ok three_slots _ _
                 1 2 H1 H2 H3 H4)).
Defined.

(** ** Init: the calls that return *)

Lemma init_msg_length (name what : string) :
  (String.length (init_msg name what) <= 255)%nat.
Proof.
  unfold init_msg, snprintf_str. rewrite substring_length_min.
  change (Nat.pred 256) with 255%nat. lia.
Qed.

(** The record cannot be allocated. *)
Lemma mutex_init_oom_record (N : nat) (e : env) (s : state) (name : string)
  (mutex : nat) :
  realloc_data_ok e = false ->
  lksmith_mutex_init N e s name mutex =
    Returns ENOMEM
      (call (with_heap s (heap s)) (g_error_cb s) LKSMITH_ERROR_OOM
         (init_msg (uninit_str e)
            "out of memory trying to allocate lksmith_lock_data.")).
Proof. intros Hoom. rewrite mutex_init_outcome, Hoom. reflexivity. Qed.

(** A call that returns has taken the out-of-memory exit of the record. *)
Lemma mutex_init_inv (N : nat) (e : env) (s s' : state) (name : string)
  (mutex : nat) (r : Z) :
  lksmith_mutex_init N e s name mutex = Returns r s' ->
  r = ENOMEM /\
  s' = call (with_heap s (heap s)) (g_error_cb s) LKSMITH_ERROR_OOM
         (init_msg (uninit_str e)
            "out of memory trying to allocate lksmith_lock_data.").
Proof.
  rewrite mutex_init_outcome.
  destruct (realloc_data_ok e); [discriminate|].
  intros Hret. inversion Hret. split; reflexivity.
Qed.

(** X15.  Whenever init returns a value other than 0, it has called the
    callback in [g_error_cb] exactly once, with the error code whose errno
    it returns, out-of-memory or create-while-in-use, and a message of at
    most 255 characters; create-while-in-use is only reported for a mutex
    that was bound.  No mutex has changed its association and every address
    holds the record it held (the new record has been freed). *)
Theorem mutex_init_failure :
  forall (N : nat) (e : env) (s s' : state) (name : string) (mutex : nat)
         (r : Z),
    lksmith_mutex_init N e s name mutex = Returns r s' ->
    r <> 0 ->
    exists (code : lksmith_error) (msg : string),
      cb_log s' = cb_log s ++ [mk_cb_call (g_error_cb s) code msg] /\
      r = lksmith_error_to_errno code /\
      (code = LKSMITH_ERROR_OOM \/
       code = LKSMITH_ERROR_CREATE_WHILE_IN_USE /\
       mutex_data s mutex <> NULL) /\
      (String.length msg <= 255)%nat /\
      (forall m : nat, mutex_data s' m = mutex_data s m) /\
      (forall p : ptr, load (heap s') p = load (heap s) p).
Proof.
  intros N e s s' name mutex r Hret Hr.
  destruct (mutex_init_inv N e s s' name mutex r Hret) as [Hr' Hs'].
  subst s'. eexists. eexists. split; [reflexivity|].
  split; [exact Hr'|]. split; [left; reflexivity|].
  split; [apply init_msg_length|]. split; reflexivity.
Qed.

Lemma mutex_init_failure_witness :
  (lksmith_mutex_init 32 env_oom initial_state
     "a name longer than the thirty-one characters kept" 0 =
     Returns ENOMEM
       (final (lksmith_mutex_init 32 env_oom initial_state
          "a name longer than the thirty-one characters kept"
          0)) /\
   ENOMEM <> 0) /\
  exists (code : lksmith_error) (msg : string),
    cb_log
      (final (lksmith_mutex_init 32 env_oom initial_state
         "a name longer than the thirty-one characters kept"
         0)) =
      cb_log initial_state ++
      [mk_cb_call (g_error_cb initial_state) code msg] /\
    ENOMEM = lksmith_error_to_errno code /\
    (code = LKSMITH_ERROR_OOM \/
     code = LKSMITH_ERROR_CREATE_WHILE_IN_USE /\
     mutex_data initial_state 0 <> NULL) /\
    (String.length msg <= 255)%nat /\
    (forall m : nat,
       mutex_data
         (final (lksmith_mutex_init 32 env_oom initial_state
            "a name longer than the thirty-one characters kept"
            0)) m = mutex_data initial_state m) /\
    (forall p : ptr,
       load
         (heap
            (final (lksmith_mutex_init 32 env_oom initial_state
               "a name longer than the thirty-one characters kept"
               0))) p = load (heap initial_state) p).
Proof.
  assert (H1 : lksmith_mutex_init 32 env_oom initial_state
                 "a name longer than the thirty-one characters kept"
                 0 =
               Returns ENOMEM
                 (final (lksmith_mutex_init 32 env_oom initial_state
                    "a name longer than the thirty-one characters kept"
                    0))) by reflexivity.
  assert (H2 : ENOMEM <> 0) by (unfold ENOMEM; lia).
  exact (conj (conj H1 H2)
              (mutex_init_failure 32 env_oom initial_state _ _ 0%nat ENOMEM
                 H1 H2)).
Defined.

(** X16.  When the record cannot be allocated, init returns [ENOMEM] after
    one out-of-memory report and has taken nothing: no lock id is marked
    used, no record exists that did not, and no mutex is bound that was
    not. *)
Theorem mutex_init_out_of_memory :
  forall (N : nat) (e : env) (s : state) (name : string) (mutex : nat),
    realloc_data_ok e = false ->
    exists (s' : state) (msg : string),
      lksmith_mutex_init N e s name mutex = Returns ENOMEM s' /\
      cb_log s' =
        cb_log s ++ [mk_cb_call (g_error_cb s) LKSMITH_ERROR_OOM msg] /\
      g_locks_used s' = g_locks_used s /\
      g_locks_size s' = g_locks_size s /\
      heap s' = heap s /\
      forall m : nat, mutex_data s' m = mutex_data s m.
Proof.
  intros N e s name mutex Hoom.
  rewrite (mutex_init_oom_record N e s name mutex Hoom).
  eexists. eexists. split; [reflexivity|]. repeat split.
Qed.

Lemma mutex_init_out_of_memory_witness :
  realloc_data_ok env_oom = false /\
  exists (s' : state) (msg : string),
    lksmith_mutex_init 32 env_oom three_slots "b" 1 = Returns ENOMEM s' /\
    cb_log s' =
      cb_log three_slots ++
      [mk_cb_call (g_error_cb three_slots) LKSMITH_ERROR_OOM msg] /\
    g_locks_used s' = g_locks_used three_slots /\
    g_locks_size s' = g_locks_size three_slots /\
    heap s' = heap three_slots /\
    forall m : nat, mutex_data s' m = mutex_data three_slots m.
Proof.
  assert (H1 : realloc_data_ok env_oom = false) by reflexivity.
  exact (conj H1
           (mutex_init_out_of_memory 32 env_oom three_slots "b" 1%nat H1)).
Defined.

(** ** Destroy: the calls that return *)

(** X19.  Destroy returns exactly when the association it read, null or
    the address of a live record, is still the association at the
    compare-and-swap; every other call ends without returning. *)
Theorem mutex_destroy_returns_iff :
  forall (N : nat) (others : state -> state) (s : state) (mutex : nat),
    (exists (v : Z) (s' : state),
       lksmith_mutex_destroy N others s mutex = Returns v s') <->
    ((mutex_data s mutex = NULL \/
      load (heap s) (mutex_data s mutex) <> None) /\
     mutex_data (others s) mutex = mutex_data s mutex).
Proof.
  intros N others s mutex. split.
  - intros (v & s' & Hret).
    destruct (Nat.eq_dec (mutex_data s mutex) NULL) as [Hnull|Hnn].
    + split; [left; exact Hnull|].
      destruct (Nat.eq_dec (mutex_data (others s) mutex)
                           (mutex_data s mutex)) as [Heq|Hne];
        [exact Heq|exfalso].
      rewrite (mutex_destroy_rebound N others s mutex (or_introl Hnull) Hne)
        in Hret by congruence.
      discriminate Hret.
    + destruct (load (heap s) (mutex_data s mutex)) as [d|] eqn:Hd.
      * split; [right; discriminate|].
        destruct (Nat.eq_dec (mutex_data (others s) mutex)
                             (mutex_data s mutex)) as [Heq|Hne];
          [exact Heq|exfalso].
        destruct (Nat.eq_dec (mutex_data (others s) mutex) NULL)
          as [Hcl|Hre].
        -- rewrite (mutex_destroy_cleared N others s mutex d Hd Hcl) in Hret.
           discriminate Hret.
        -- rewrite (mutex_destroy_rebound N others s mutex) in Hret;
             [discriminate Hret| |exact Hne|exact Hre].
           right. rewrite Hd. discriminate.
      * rewrite (mutex_destroy_dangling N others s mutex Hnn Hd) in Hret.
        discriminate Hret.
  - intros [Hcur Hsame]. eexists. eexists.
    exact (mutex_destroy_wins N others s mutex Hcur Hsame).
Qed.

(** X20.  When destroy returns, it returns 0, and the association was the
    same at the compare-and-swap as at the read; the mutex is unbound and
    the record it was bound to, if any, is freed; the other mutexes, the
    other records, the used bitmap and the callback log are what the other
    threads left: the lock id is not given back and nothing is reported. *)
Theorem mutex_destroy_on_return :
  forall (N : nat) (others : state -> state) (s s' : state) (mutex : nat)
         (v : Z),
    lksmith_mutex_destroy N others s mutex = Returns v s' ->
    v = 0 /\
    mutex_data (others s) mutex = mutex_data s mutex /\
    mutex_data s' mutex = NULL /\
    load (heap s') (mutex_data s mutex) = None /\
    (forall m : nat, m <> mutex ->
                     mutex_data s' m = mutex_data (others s) m) /\
    (forall q : ptr, q <> mutex_data s mutex ->
                     load (heap s') q = load (heap (others s)) q) /\
    g_locks_used s' = g_locks_used (others s) /\
    g_locks_size s' = g_locks_size (others s) /\
    cb_log s' = cb_log (others s).
Proof.
  intros N others s s' mutex v Hret.
  assert (Hcur : (mutex_data s mutex = NULL \/
                  load (heap s) (mutex_data s mutex) <> None) /\
                 mutex_data (others s) mutex = mutex_data s mutex).
  { destruct (Nat.eq_dec (mutex_data s mutex) NULL) as [Hnull|Hnn].
    - split; [left; exact Hnull|].
      destruct (Nat.eq_dec (mutex_data (others s) mutex)
                           (mutex_data s mutex)) as [Heq|Hne];
        [exact Heq|exfalso].
      rewrite (mutex_destroy_rebound N others s mutex (or_introl Hnull) Hne)
        in Hret by congruence.
      discriminate Hret.
    - destruct (load (heap s) (mutex_data s mutex)) as [d|] eqn:Hd.
      + split; [right; discriminate|].
        destruct (Nat.eq_dec (mutex_data (others s) mutex)
                             (mutex_data s mutex)) as [Heq|Hne];
          [exact Heq|exfalso].
        destruct (Nat.eq_dec (mutex_data (others s) mutex) NULL)
          as [Hcl|Hre].
        * rewrite (mutex_destroy_cleared N others s mutex d Hd Hcl) in Hret.
          discriminate Hret.
        * rewrite (mutex_destroy_rebound N others s mutex) in Hret;
            [discriminate Hret| |exact Hne|exact Hre].
          right. rewrite Hd. discriminate.
      + rewrite (mutex_destroy_dangling N others s mutex Hnn Hd) in Hret.
        discriminate Hret. }
  destruct Hcur as [Hcur Hsame].
  rewrite (mutex_destroy_wins N others s mutex Hcur Hsame) in Hret.
  inversion Hret. cbn [with_heap with_mutex_data mutex_data heap
                       g_locks_used g_locks_size cb_log].
  unfold set_mutex_data. rewrite Nat.eqb_refl.
  split; [reflexivity|]. split; [exact Hsame|].
  split; [reflexivity|]. split; [apply load_free_same|].
  split; [intros m Hm; destruct (Nat.eqb_spec m mutex);
          [contradiction|reflexivity]|].
  split; [intros q Hq; apply load_free_other; exact Hq|].
  repeat split.
Qed.

Lemma mutex_destroy_on_return_witness :
  lksmith_mutex_destroy 32 (fun s => s) bound_mutex 0 =
    Returns 0
      (final (lksmith_mutex_destroy 32 (fun s => s) bound_mutex 0)) /\
  0 = 0 /\
  mutex_data bound_mutex 0 = mutex_data bound_mutex 0 /\
  mutex_data
    (final (lksmith_mutex_destroy 32 (fun s => s) bound_mutex 0)) 0 = NULL /\
  load
    (heap (final (lksmith_mutex_destroy 32 (fun s => s) bound_mutex 0)))
    (mutex_data bound_mutex 0) = None /\
  (forall m : nat,
     m <> 0%nat ->
     mutex_data
       (final (lksmith_mutex_destroy 32 (fun s => s) bound_mutex 0)) m =
       mutex_data bound_mutex m) /\
  (forall q : ptr,
     q <> mutex_data bound_mutex 0 ->
     load
       (heap (final (lksmith_mutex_destroy 32 (fun s => s) bound_mutex 0)))
       q = load (heap bound_mutex) q) /\
  g_locks_used
    (final (lksmith_mutex_destroy 32 (fun s => s) bound_mutex 0)) =
    g_locks_used bound_mutex /\
  g_locks_size
    (final (lksmith_mutex_destroy 32 (fun s => s) bound_mutex 0)) =
    g_locks_size bound_mutex /\
  cb_log (final (lksmith_mutex_destroy 32 (fun s => s) bound_mutex 0)) =
    cb_log bound_mutex.
Proof.
  assert (H1 : lksmith_mutex_destroy 32 (fun s => s) bound_mutex 0 =
               Returns 0
                 (final (lksmith_mutex_destroy 32 (fun s => s) bound_mutex
                           0))) by reflexivity.
  exact (conj H1
           (mutex_destroy_on_return 32 (fun s => s) bound_mutex _ 0%nat 0
              H1)).
Defined.

(** ** The error callback *)

Lemma substring_prefix (s : string) (k : nat) :
  prefix (substring 0 k s) s = true.
Proof.
  revert k; induction s as [|c s IH]; intros [|k]; simpl; try reflexivity.
  destruct (ascii_dec c c) as [_|Hne]; [apply IH|contradiction].
Qed.

(** X23.  After [lksmith_set_error_cb], an error report goes to the new
    callback and to it alone, once, with the code given; the message it
    gets is the start of the text, at most 1023 characters of it, and the
    whole text when that is no longer.  The callback stays installed. *)
Theorem print_error_after_set_error_cb :
  forall (s : state) (fn : lksmith_error_cb_t) (err : lksmith_error)
         (msg : string),
    exists m : string,
      cb_log (lksmith_print_error_unlocked (lksmith_set_error_cb s fn)
                err msg) =
        cb_log s ++ [mk_cb_call fn err m] /\
      prefix m msg = true /\
      String.length m = Nat.min 1023 (String.length msg) /\
      ((String.length msg <= 1023)%nat -> m = msg) /\
      g_error_cb (lksmith_print_error_unlocked (lksmith_set_error_cb s fn)
                    err msg) = fn.
Proof.
  intros s fn err msg. exists (snprintf_str 1024 msg).
  split; [reflexivity|]. unfold snprintf_str.
  change (Nat.pred 1024) with 1023%nat.
  split; [apply substring_prefix|].
  split; [apply substring_length_min|].
  split; [apply substring_whole|reflexivity].
Qed.
